(** * class_utils: association matrices, crosstabs and heatmap masks

    A shallow embedding of the algorithmic parts of the [class_utils]
    package ([corr.py], [utils.py], [plots.py]) together with the
    properties stated about them.  Python exceptions are modelled by an
    error monad, dataframes by association lists of named columns, labelled
    result matrices by finite maps keyed by label pairs, and positional
    [numpy] arrays by lists. *)

From Stdlib Require Import QArith Qabs.
From stdpp Require Import base option list strings gmap.

#[local] Open Scope string_scope.
#[local] Open Scope nat_scope.
#[local] Open Scope list_scope.
#[local] Open Scope stdpp_scope.

(** ** Python runtime: exceptions *)

Inductive exn : Type :=
  | ValueError
  | TypeError
  | KeyError
  | IndexError
  | AttributeError
  | ZeroDivisionError.

Inductive res (A : Type) : Type :=
  | Ok (a : A)
  | Raise (e : exn).
Arguments Ok {A} a.
Arguments Raise {A} e.

#[global] Instance res_ret : MRet res := @Ok.
#[global] Instance res_bind : MBind res := λ A B f m,
  match m with
  | Ok a => f a
  | Raise e => Raise e
  end.
#[global] Instance res_fmap : FMap res := λ A B f m,
  match m with
  | Ok a => Ok (f a)
  | Raise e => Raise e
  end.

Definition is_Ok {A} (m : res A) : Prop := ∃ a, m = Ok a.
Definition raises {A} (m : res A) : Prop := ∃ e, m = Raise e.

(** Monadic map and left fold: a [for] loop whose body may raise. *)
Fixpoint res_mapM {A B} (f : A → res B) (l : list A) : res (list B) :=
  match l with
  | [] => Ok []
  | a :: l => b ← f a; bs ← res_mapM f l; Ok (b :: bs)
  end.

Fixpoint res_foldM {A S} (f : S → A → res S) (s : S) (l : list A) : res S :=
  match l with
  | [] => Ok s
  | a :: l => s' ← f s a; res_foldM f s' l
  end.

(** ** Values, series and dataframes *)

(** A double: a finite number, NaN or an infinity. *)
Inductive pyfloat : Type :=
  | Fin (q : Q)
  | NaN
  | PosInf
  | NegInf.

(** A dataframe cell: a number, a string, or [None]. *)
Inductive value : Type :=
  | VFloat (f : pyfloat)
  | VStr (s : string)
  | VNone.

#[global] Instance Q_eq_dec : EqDecision Q.
Proof. solve_decision. Defined.
#[global] Instance pyfloat_eq_dec : EqDecision pyfloat.
Proof. solve_decision. Defined.
#[global] Instance value_eq_dec : EqDecision value.
Proof. solve_decision. Defined.

Abbreviation Series := (list value).

(** Columns in order, each with its name. *)
Abbreviation DataFrame := (list (string * Series)).

Definition columns (df : DataFrame) : list string := df.*1.

Fixpoint assoc (df : DataFrame) (col : string) : option Series :=
  match df with
  | [] => None
  | (c, s) :: df => if decide (c = col) then Some s else assoc df col
  end.

(** [df[col]] *)
Definition getitem (df : DataFrame) (col : string) : res Series :=
  match assoc df col with
  | Some s => Ok s
  | None => Raise KeyError
  end.

Definition is_finite (f : pyfloat) : bool :=
  match f with
  | Fin _ => true
  | _ => false
  end.

Definition is_nan (f : pyfloat) : bool :=
  match f with
  | NaN => true
  | _ => false
  end.

Definition is_number (v : value) : bool :=
  match v with
  | VFloat _ => true
  | _ => false
  end.

(** A column has a numeric dtype when every cell is a number; anything
    else is stored with the object dtype. *)
Definition numeric_dtype (s : Series) : bool := forallb is_number s.

Definition finite_value (v : value) : bool :=
  match v with
  | VFloat f => is_finite f
  | _ => false
  end.

(** [np.isfinite(s)]: elementwise on a numeric column, a [TypeError] on an
    object column. *)
Definition np_isfinite (s : Series) : res (list bool) :=
  if numeric_dtype s then Ok (map finite_value s) else Raise TypeError.

(** [pd.isnull(v)]: NaN and [None] are the missing-value markers;
    infinities are not. *)
Definition pd_isnull (v : value) : bool :=
  match v with
  | VFloat NaN => true
  | VNone => true
  | _ => false
  end.

Definition np_logical_and (a b : list bool) : list bool := zip_with andb a b.

(** [np.where(mask)]: the positions that hold [True], ascending. *)
Fixpoint np_where_from (i : nat) (mask : list bool) : list nat :=
  match mask with
  | [] => []
  | b :: mask => if b then i :: np_where_from (S i) mask
                 else np_where_from (S i) mask
  end.
Definition np_where (mask : list bool) : list nat := np_where_from 0 mask.

(** [values[index]] with an integer index array. *)
Definition np_take {A} (values : list A) (index : list nat) : res (list A) :=
  res_mapM (λ i, match values !! i with
                 | Some v => Ok v
                 | None => Raise IndexError
                 end) index.

(** [values[mask] = v] with a boolean mask over the same rows. *)
Definition np_putmask {A} (values : list A) (mask : list bool) (v : A) : list A :=
  zip_with (λ x (b : bool), if b then v else x) values mask.

(** [values[mask]] with a boolean mask over the same rows. *)
Definition select_rows {A} (values : list A) (mask : list bool) : list A :=
  (filter (λ p : A * bool, p.2 = true) (zip values mask)).*1.

(** ** corr.py: [_make_finite] *)

Definition _make_finite (df : DataFrame) (col1 col2 : string)
    (col1_numeric col2_numeric : bool)
    (method : string) (replace_value : value) : res (Series * Series) :=
  c1 ← getitem df col1;
  col1_mask ← (if col1_numeric then np_isfinite c1
               else Ok (map (λ v, negb (pd_isnull v)) c1));
  c2 ← getitem df col2;
  col2_mask ← (if col2_numeric then np_isfinite c2
               else Ok (map (λ v, negb (pd_isnull v)) c2));
  if decide (method = "mask") then
    let index := np_where (np_logical_and col1_mask col2_mask) in
    x ← np_take c1 index;
    y ← np_take c2 index;
    Ok (x, y)
  else if decide (method = "replace") then
    let x := np_putmask c1 (map negb col1_mask) replace_value in
    let y := np_putmask c2 (map negb col2_mask) replace_value in
    Ok (x, y)
  else Raise ValueError.

(** ** Labelled square matrices

    [pd.DataFrame(np.ones([n, n]), columns=cols, index=cols)] and its
    [.loc[row, col]] accessor: cells are keyed by the pair of labels. *)

Record Frame (V : Type) : Type := MkFrame {
  labels : list string;
  cells : gmap (string * string) V
}.
Arguments MkFrame {V} labels cells.
Arguments labels {V} f.
Arguments cells {V} f.

Definition full_frame {V} (cols : list string) (v : V) : Frame V :=
  MkFrame cols (gset_to_gmap v (list_to_set (list_prod cols cols))).

Definition loc {V} (f : Frame V) (row col : string) : option V :=
  cells f !! (row, col).

Definition loc_set {V} (f : Frame V) (row col : string) (v : V) : Frame V :=
  MkFrame (labels f) (<[(row, col) := v]> (cells f)).

(** [itertools.combinations(l, 2)] *)
Fixpoint combinations2 {A} (l : list A) : list (A * A) :=
  match l with
  | [] => []
  | x :: l => map (pair x) l ++ combinations2 l
  end.

(** ** corr.py: column selection *)

(** The [categorical_inputs] / [numeric_inputs] arguments: [None], the
    string ['auto'], or a list of column names. *)
Inductive col_arg : Type :=
  | ArgNone
  | ArgAuto
  | ArgList (l : list string).

(** [df.select_dtypes(np.number).columns] *)
Definition select_dtypes_number (df : DataFrame) : list string :=
  (filter (λ cs : string * Series, numeric_dtype cs.2 = true) df).*1.

Inductive CorrType : Type :=
  | num_vs_num
  | num_vs_cat
  | cat_vs_num
  | cat_vs_cat.

(** A cell of the pair-kind frame: the float [0.0] it is created with, or
    a [CorrType] member. *)
Inductive ct_cell : Type :=
  | CtZero
  | CtTag (t : CorrType).

#[global] Instance CorrType_eq_dec : EqDecision CorrType.
Proof. solve_decision. Defined.
#[global] Instance ct_cell_eq_dec : EqDecision ct_cell.
Proof. solve_decision. Defined.

(** The three frames [corr] fills. *)
Record frames : Type := MkFrames {
  df_r : Frame pyfloat;
  df_p : Frame pyfloat;
  df_ct : Frame ct_cell
}.

Section corr.
(** Collaborators that live outside [corr.py]: the automatic type split
    of [utils], [scipy.stats.pearsonr], and the SweetViz statistics.
    Each statistic may raise. *)
Variable split_col_by_type : DataFrame → list string * list string.
Variable pearsonr : Series → Series → res (pyfloat * pyfloat).
Variable correlation_ratio : Series → Series → res pyfloat.
Variable theils_u : Series → Series → res pyfloat.
Variable theils_sym_u : Series → Series → res pyfloat.

Definition _num_cat_select (df : DataFrame)
    (categorical_inputs numeric_inputs : col_arg)
    : DataFrame * gset string * gset string :=
  let categorical_inputs : option (gset string) :=
    match categorical_inputs with
    | ArgNone => Some ∅
    | ArgAuto => None
    | ArgList l => Some (list_to_set l)
    end in
  let numeric_inputs : option (gset string) :=
    match numeric_inputs with
    | ArgAuto => None
    | ArgNone => None
    | ArgList l => Some (list_to_set l)
    end in
  let '(categorical_inputs, numeric_inputs) :=
    match categorical_inputs, numeric_inputs with
    | None, None =>
        let '(cat, num) := split_col_by_type df in
        (list_to_set cat, list_to_set num)
    | None, Some numeric_inputs =>
        let '(tmp_cat, _) := split_col_by_type df in
        (list_to_set tmp_cat ∖ numeric_inputs, numeric_inputs)
    | Some categorical_inputs, None =>
        let '(_, tmp_num) := split_col_by_type df in
        let tmp_num : gset string :=
          list_to_set tmp_num ∪ list_to_set (select_dtypes_number df) in
        (categorical_inputs, tmp_num ∖ categorical_inputs)
    | Some categorical_inputs, Some numeric_inputs =>
        (categorical_inputs, numeric_inputs)
    end in
  let df_sel :=
    filter (λ cs : string * Series,
              cs.1 ∈ categorical_inputs ∪ numeric_inputs) df in
  (df_sel, categorical_inputs, numeric_inputs).

(** The six [.loc] assignments that end every branch of the loop body. *)
Definition assign_pair (fs : frames) (col1 col2 : string)
    (r12 r21 p : pyfloat) (t : CorrType) : frames :=
  let df_r := loc_set (df_r fs) col1 col2 r12 in
  let df_r := loc_set df_r col2 col1 r21 in
  let df_p := loc_set (df_p fs) col1 col2 p in
  let df_p := loc_set df_p col2 col1 p in
  let df_ct := loc_set (df_ct fs) col1 col2 (CtTag t) in
  let df_ct := loc_set df_ct col2 col1 (CtTag t) in
  MkFrames df_r df_p df_ct.

Section body.
Variable df : DataFrame.
Variable numeric_inputs : gset string.
Variable corr_method : Series → Series → res (pyfloat * pyfloat).
Variable nan_strategy : string.
Variable nan_replace_value : value.
Variable sym_u : bool.

(** The body of [for col1, col2 in combinations(df_sel.columns, 2)]. *)
Definition corr_pair (fs : frames) (cols : string * string) : res frames :=
  let '(col1, col2) := cols in
  if decide (col1 ∈ numeric_inputs) then
    if decide (col2 ∈ numeric_inputs) then
      '(x, y) ← _make_finite df col1 col2 true true
                  nan_strategy nan_replace_value;
      '(r, p) ← corr_method x y;
      Ok (assign_pair fs col1 col2 r r p num_vs_num)
    else
      '(x, y) ← _make_finite df col1 col2 true false
                  nan_strategy nan_replace_value;
      r ← correlation_ratio y x;
      Ok (assign_pair fs col1 col2 r r (Fin 0) num_vs_cat)
  else
    if decide (col2 ∈ numeric_inputs) then
      '(x, y) ← _make_finite df col1 col2 false true
                  nan_strategy nan_replace_value;
      r ← correlation_ratio x y;
      Ok (assign_pair fs col1 col2 r r (Fin 0) cat_vs_num)
    else
      '(x, y) ← _make_finite df col1 col2 false false
                  nan_strategy nan_replace_value;
      if sym_u then
        u ← theils_sym_u x y;
        Ok (assign_pair fs col1 col2 u u (Fin 0) cat_vs_cat)
      else
        u12 ← theils_u x y;
        u21 ← theils_u y x;
        Ok (assign_pair fs col1 col2 u12 u21 (Fin 0) cat_vs_cat).
End body.

Definition corr (df : DataFrame)
    (categorical_inputs numeric_inputs : col_arg)
    (corr_method : option (Series → Series → res (pyfloat * pyfloat)))
    (nan_strategy : string) (nan_replace_value : value)
    (return_corr_types sym_u : bool)
    : res (Frame pyfloat * Frame pyfloat * option (Frame ct_cell)) :=
  let corr_method := default pearsonr corr_method in
  let '(df_sel, categorical_inputs, numeric_inputs) :=
    _num_cat_select df categorical_inputs numeric_inputs in
  let fs := MkFrames (full_frame (columns df_sel) (Fin 1))
                     (full_frame (columns df_sel) (Fin 0))
                     (full_frame (columns df_sel) CtZero) in
  fs ← res_foldM
         (corr_pair df numeric_inputs corr_method
                    nan_strategy nan_replace_value sym_u)
         fs (combinations2 (columns df_sel));
  if return_corr_types then Ok (df_r fs, df_p fs, Some (df_ct fs))
  else Ok (df_r fs, df_p fs, None).
End corr.

(** ** utils.py: [numpy_crosstab] *)

(** A named column, as [df[col]] returns it. *)
Abbreviation PdSeries := (string * Series)%type.

(** A table of counts with its own row and column labels. *)
Record Table : Type := MkTable {
  index_name : string;
  columns_name : string;
  index : list string;
  tcolumns : list string;
  tvalues : list (list Z)
}.

(** [np.unique] on strings: sorted by code point, without repeats. *)
Fixpoint insert_sorted (s : string) (l : list string) : list string :=
  match l with
  | [] => [s]
  | t :: l' =>
      match String.compare s t with
      | Lt => s :: l
      | Eq => l
      | Gt => t :: insert_sorted s l'
      end
  end.

Definition np_unique (l : list string) : list string :=
  foldr insert_sorted [] l.

(** Position of [s] in [l] (its length when absent). *)
Fixpoint index_of (s : string) (l : list string) : nat :=
  match l with
  | [] => 0
  | t :: l' => if decide (s = t) then 0 else S (index_of s l')
  end.

(** [np.unique(a, return_inverse=True)] *)
Definition np_unique_inverse (a : list string) : list string * list nat :=
  let cats := np_unique a in
  (cats, map (λ s, index_of s cats) a).

(** [np.zeros((n, m), dtype=int)] *)
Definition np_zeros (n m : nat) : list (list Z) := replicate n (replicate m 0%Z).

(** [cm[i, j] += 1], an [IndexError] outside the matrix. *)
Definition add_at (cm : list (list Z)) (ij : nat * nat) : res (list (list Z)) :=
  match cm !! ij.1 with
  | Some row =>
      match row !! ij.2 with
      | Some n => Ok (<[ij.1 := <[ij.2 := (n + 1)%Z]> row]> cm)
      | None => Raise IndexError
      end
  | None => Raise IndexError
  end.

(** [np.add.at(cm, (x_enc, y_enc), 1)] *)
Definition np_add_at (cm : list (list Z)) (x_enc y_enc : list nat)
    : res (list (list Z)) :=
  res_foldM add_at cm (zip x_enc y_enc).

(** [DataFrame.drop([label], axis=0, errors='ignore')] *)
Definition drop_rows (label : string) (t : Table) : Table :=
  let keep := filter (λ r : string * list Z, r.1 ≠ label)
                     (zip (index t) (tvalues t)) in
  MkTable (index_name t) (columns_name t) keep.*1 (tcolumns t) keep.*2.

(** Positions of the entries of [l] that differ from [label]. *)
Definition positions_ne (label : string) (l : list string) : list nat :=
  np_where (map (λ c, bool_decide (c ≠ label)) l).

(** [DataFrame.drop([label], axis=1, errors='ignore')] *)
Definition drop_columns (label : string) (t : Table) : Table :=
  let keep := positions_ne label (tcolumns t) in
  MkTable (index_name t) (columns_name t) (index t)
    (omap (λ j, tcolumns t !! j) keep)
    (map (λ row : list Z, omap (λ j, row !! j) keep) (tvalues t)).

Section utils.
(** [str(f)] for a finite float; Python's shortest round-trip printing is
    left abstract. *)
Variable float_repr : Q → string.

(** [str(v)], the cast [astype('str')] applies to every cell. *)
Definition str_of_value (v : value) : string :=
  match v with
  | VStr s => s
  | VNone => "None"
  | VFloat NaN => "nan"
  | VFloat PosInf => "inf"
  | VFloat NegInf => "-inf"
  | VFloat (Fin q) => float_repr q
  end.

(** [x] and [y] are two columns over the same index (equally long);
    series that do not align are outside this model and are refused. *)
Definition numpy_crosstab (x y : PdSeries) (dropna shownan : bool) : res Table :=
  if decide (length x.2 = length y.2) then
    let '(xv, yv) :=
      if dropna then
        let ind := map negb (zip_with orb (map pd_isnull x.2) (map pd_isnull y.2)) in
        (select_rows x.2 ind, select_rows y.2 ind)
      else (x.2, y.2) in
    let '(x_cats, x_enc) := np_unique_inverse (map str_of_value xv) in
    let '(y_cats, y_enc) := np_unique_inverse (map str_of_value yv) in
    let cm := np_zeros (length x_cats) (length y_cats) in
    cm ← np_add_at cm x_enc y_enc;
    let cm_df := MkTable x.1 y.1 x_cats y_cats cm in
    let cm_df :=
      if negb shownan then drop_columns "nan" (drop_rows "nan" cm_df)
      else cm_df in
    Ok cm_df
  else Raise ValueError.
End utils.

(** ** plots.py: float tests used by the renderers *)

(** [a >= b] on doubles: false as soon as one side is NaN. *)
Definition float_ge (a b : pyfloat) : bool :=
  match a, b with
  | NaN, _ | _, NaN => false
  | PosInf, _ => true
  | _, NegInf => true
  | NegInf, _ => false
  | _, PosInf => false
  | Fin x, Fin y => Qle_bool y x
  end.

(** [a == 0] on doubles. *)
Definition float_is_zero (a : pyfloat) : bool :=
  match a with
  | Fin x => Qeq_bool x 0
  | _ => false
  end.

(** [np.abs] *)
Definition float_abs (a : pyfloat) : pyfloat :=
  match a with
  | Fin x => Fin (Qabs x)
  | NaN => NaN
  | PosInf | NegInf => PosInf
  end.

(** [a[i]] on a positional array. *)
Definition getidx {A} (a : list A) (i : nat) : res A :=
  match a !! i with
  | Some v => Ok v
  | None => Raise IndexError
  end.

(** ** plots.py: [_zaric_heatmap], the loop that emits the shapes *)

(** The shape collection handed to [PatchCollection]: the patches and, for
    the colour array, the indices of the cells they were made from; with
    the indices of the cells that were annotated. *)
Record Collection (shape : Type) : Type := MkCollection {
  patch_col : list shape;
  patch_col_ind : list nat;
  annotated : list nat
}.
Arguments MkCollection {shape} patch_col patch_col_ind annotated.
Arguments patch_col {shape} c.
Arguments patch_col_ind {shape} c.
Arguments annotated {shape} c.

Section zaric.
Variable shape : Type.
(** The geometry of one cell (label lookup, pixel rounding, gap, circle or
    rectangle): it depends on the axes transform of the drawing surface
    and may fail on a label missing from the axis order. *)
Variable make_patch : string → string → bool → pyfloat → res shape.

(** The test that opens the loop body; the Python [or] stops at its first
    true operand. *)
Definition cell_skipped (size color : list pyfloat) (mask : option (list bool))
    (index : nat) : res bool :=
  s ← getidx size index;
  if float_is_zero s then Ok true else
  c ← getidx color index;
  if is_nan c then Ok true else
  match mask with
  | None => Ok false
  | Some mask => getidx mask index
  end.

(** One iteration of [for cur_x, cur_y, use_circ in zip(x, y, circular)];
    the state carries [index] and the lists built so far. *)
Definition zaric_cell (size color : list pyfloat) (mask : option (list bool))
    (annot : bool) (st : nat * Collection shape)
    (cell : string * string * bool) : res (nat * Collection shape) :=
  let '(index, coll) := st in
  let '(cur_x, cur_y, use_circ) := cell in
  skip ← cell_skipped size color mask index;
  if (skip : bool) then Ok (index + 1, coll)
  else
    s ← getidx size index;
    cur_rect ← make_patch cur_x cur_y use_circ s;
    let annotated := if annot then annotated coll ++ [index]
                     else annotated coll in
    Ok (index + 1,
        MkCollection (patch_col coll ++ [cur_rect])
                     (patch_col_ind coll ++ [index]) annotated).

(** The parameter list starts [(y, x, ...)]; [size] and [circular] default
    to all ones and all false.  The colour array is taken as given. *)
Definition _zaric_heatmap (y x : list string) (color : list pyfloat)
    (size : option (list pyfloat)) (circular : option (list bool))
    (mask : option (list bool)) (annot : bool) : res (Collection shape) :=
  let size := default (replicate (length x) (Fin 1)) size in
  let circular := default (replicate (length x) false) circular in
  st ← res_foldM (zaric_cell size color mask annot)
         (0, MkCollection [] [] [])
         (zip (zip x y) circular);
  Ok st.2.
End zaric.

(** ** plots.py: masks of [corr_heatmap] *)

(** [mask[i, j] = True] *)
Definition mask_set (mask : list (list bool)) (ij : nat * nat)
    : res (list (list bool)) :=
  match mask !! ij.1 with
  | Some row =>
      if decide (ij.2 < length row)
      then Ok (<[ij.1 := <[ij.2 := true]> row]> mask)
      else Raise IndexError
  | None => Raise IndexError
  end.

(** The cell of a frame at a position, as [.values[i, j]] reads it. *)
Definition frame_at {V} (f : Frame V) (i j : nat) : option V :=
  a ← labels f !! i; b ← labels f !! j; loc f a b.

(** The test [p >= p_bound] at one position. *)
Definition p_ge (p : Frame pyfloat) (p_bound : pyfloat) (ij : nat * nat) : bool :=
  match frame_at p ij.1 ij.2 with
  | Some v => float_ge v p_bound
  | None => false
  end.

(** [np.where(p >= p_bound)] on a square frame: the positions, row by
    row, of the cells that pass the test. *)
Definition where_ge (p : Frame pyfloat) (p_bound : pyfloat) : list (nat * nat) :=
  let n := length (labels p) in
  filter (λ ij, p_ge p p_bound ij = true) (list_prod (seq 0 n) (seq 0 n)).

Definition _mask_corr_significance (mask : list (list bool))
    (p : Frame pyfloat) (p_bound : pyfloat) : res (list (list bool)) :=
  res_foldM mask_set mask (where_ge p p_bound).

(** [np.fill_diagonal(mask, True)] *)
Definition _mask_diagonal (mask : list (list bool)) : list (list bool) :=
  imap (λ i row, <[i := true]> row) mask.

(** Lines 540 to 546 of [corr_heatmap]: the mask handed to [heatmap]. *)
Definition corr_heatmap_mask (r p : Frame pyfloat)
    (mask : option (list (list bool))) (p_bound : option pyfloat)
    (mask_diagonal : bool) : res (list (list bool)) :=
  let n := length (labels r) in
  let mask := default (replicate n (replicate n false)) mask in
  mask ← match p_bound with
         | Some p_bound => _mask_corr_significance mask p p_bound
         | None => Ok mask
         end;
  Ok (if mask_diagonal then _mask_diagonal mask else mask).

(** ** plots.py: [heatmap] *)

(** The frame [heatmap] draws: row labels, column labels and values. *)
Record Matrix : Type := MkMatrix {
  m_index : list string;
  m_columns : list string;
  m_values : list (list pyfloat)
}.

(** What a call leaves on the drawing surface. *)
Inductive drawing (shape : Type) : Type :=
  | Zaric (c : Collection shape)
  | SnsHeatmap (df : Matrix) (mask : option (list (list bool)))
  | SnsClustermap (df : Matrix) (mask : option (list (list bool))).
Arguments Zaric {shape} c.
Arguments SnsHeatmap {shape} df mask.
Arguments SnsClustermap {shape} df mask.

(** [a[ind, :]] and [a[:, ind]] *)
Definition take_rows {A} (a : list (list A)) (ind : list nat) : res (list (list A)) :=
  np_take a ind.
Definition take_cols {A} (a : list (list A)) (ind : list nat) : res (list (list A)) :=
  res_mapM (λ row, np_take row ind) a.

Definition opt_mapM {A B} (f : A → res B) (o : option A) : res (option B) :=
  match o with
  | Some a => b ← f a; Ok (Some b)
  | None => Ok None
  end.

Section heatmap.
Variable shape : Type.
Variable make_patch : string → string → bool → pyfloat → res shape.
(** [_DendrogramPlotter(df, axis, metric, method, ...).reordered_ind]:
    seaborn's hierarchical clustering, which may raise. *)
Variable reordered_ind : Matrix → nat → string → string → res (list nat).

(** The frame with the mask and pair kinds that follow its reordering. *)
Abbreviation heat_state :=
  (Matrix * option (list (list bool)) * option (list (list ct_cell)))%type.

(** [df.reindex(df.index[row_ind])], [mask[row_ind, :]],
    [corr_types[row_ind, :]] *)
Definition reorder_rows (st : heat_state) (row_ind : list nat) : res heat_state :=
  let '(df, mask, corr_types) := st in
  index ← np_take (m_index df) row_ind;
  values ← take_rows (m_values df) row_ind;
  mask ← opt_mapM (λ m, take_rows m row_ind) mask;
  corr_types ← opt_mapM (λ c, take_rows c row_ind) corr_types;
  Ok (MkMatrix index (m_columns df) values, mask, corr_types).

(** [df.reindex(df.columns[col_ind], axis=1)], [mask[:, col_ind]],
    [corr_types[:, col_ind]] *)
Definition reorder_cols (st : heat_state) (col_ind : list nat) : res heat_state :=
  let '(df, mask, corr_types) := st in
  cols ← np_take (m_columns df) col_ind;
  values ← take_cols (m_values df) col_ind;
  mask ← opt_mapM (λ m, take_cols m col_ind) mask;
  corr_types ← opt_mapM (λ c, take_cols c col_ind) corr_types;
  Ok (MkMatrix (m_index df) cols values, mask, corr_types).

(** The branch on [map_type] that closes [heatmap]. *)
Definition heatmap_draw (st : heat_state) (map_type : string)
    (annot : option bool) : res (drawing shape) :=
  let '(df, mask, corr_types) := st in
  if decide (map_type = "zaric") then
    let annot := default false annot in
    let l := list_prod (m_index df) (m_columns df) in
    let x := l.*1 in
    let y := l.*2 in
    let v := concat (m_values df) in
    let m := (λ m, concat m) <$> mask in
    let circ :=
      match corr_types with
      | Some ct => map (λ c, bool_decide (c = CtTag num_vs_num)) (concat ct)
      | None => replicate (length x) false
      end in
    c ← _zaric_heatmap shape make_patch x y v
          (Some (map float_abs v)) (Some circ) m annot;
    Ok (Zaric c)
  else if decide (map_type = "standard" ∨ map_type = "dendrograms") then
    if decide (map_type = "dendrograms") then Ok (SnsClustermap df mask)
    else Ok (SnsHeatmap df mask)
  else Raise ValueError.

Definition heatmap (df : Matrix) (corr_types : option (list (list ct_cell)))
    (map_type : string) (ax : option nat) (annot : option bool)
    (mask : option (list (list bool)))
    (row_cluster : bool) (row_cluster_metric row_cluster_method : string)
    (col_cluster : bool) (col_cluster_metric col_cluster_method : string)
    : res (drawing shape) :=
  if bool_decide (map_type = "dendrograms") && bool_decide (ax ≠ None)
  then Raise ValueError
  else
    let st : heat_state := (df, mask, corr_types) in
    st ← (if row_cluster && negb (bool_decide (map_type = "dendrograms")) then
            row_ind ← reordered_ind df 0 row_cluster_metric row_cluster_method;
            reorder_rows st row_ind
          else Ok st);
    st ← (if col_cluster && negb (bool_decide (map_type = "dendrograms")) then
            col_ind ← reordered_ind st.1.1 1
                        col_cluster_metric col_cluster_method;
            reorder_cols st col_ind
          else Ok st);
    heatmap_draw st map_type annot.

(** The values of a labelled frame, row by row. *)
Definition frame_values {V} (d : V) (f : Frame V) : list (list V) :=
  map (λ a, map (λ b, default d (loc f a b)) (labels f)) (labels f).

Definition matrix_of_frame (f : Frame pyfloat) : Matrix :=
  MkMatrix (labels f) (labels f) (frame_values NaN f).

Definition matrix_of_table (t : Table) : Matrix :=
  MkMatrix (index t) (tcolumns t)
    (map (map (λ n : Z, Fin (inject_Z n))) (tvalues t)).

Section corr_heatmap.
Variable split_col_by_type : DataFrame → list string * list string.
Variable pearsonr : Series → Series → res (pyfloat * pyfloat).
Variable correlation_ratio : Series → Series → res pyfloat.
Variable theils_u : Series → Series → res pyfloat.
Variable theils_sym_u : Series → Series → res pyfloat.

Definition corr_heatmap (data_frame : DataFrame)
    (categorical_inputs numeric_inputs : col_arg)
    (corr_method : option (Series → Series → res (pyfloat * pyfloat)))
    (nan_strategy : string) (nan_replace_value : value)
    (sym_u mask_diagonal : bool) (p_bound : option pyfloat)
    (ax : option nat) (map_type : string) (annot : option bool)
    (mask : option (list (list bool)))
    : res (Frame pyfloat * Frame pyfloat * Frame ct_cell * drawing shape) :=
  rpc ← corr split_col_by_type pearsonr correlation_ratio theils_u theils_sym_u
          data_frame categorical_inputs numeric_inputs corr_method
          nan_strategy nan_replace_value true sym_u;
  match rpc with
  | (r, p, Some ct) =>
      mask ← corr_heatmap_mask r p mask p_bound mask_diagonal;
      d ← heatmap (matrix_of_frame r) (Some (frame_values CtZero ct))
            map_type ax annot (Some mask)
            false "euclidean" "average" false "euclidean" "average";
      Ok (r, p, ct, d)
  | (_, _, None) => Raise TypeError
  end.
End corr_heatmap.
End heatmap.

(** ** plots.py: [ColGrid] *)

(** A columns argument: one name (a [str]) or a list of names. *)
Inductive cols_spec : Type :=
  | OneCol (s : string)
  | ManyCols (l : list string).

Record ColGrid : Type := MkColGrid {
  g_data : DataFrame;
  x_cols : list string;
  y_cols : list (option string);
  interact : string;
  col_wrap : nat
}.

(** [ColGrid.__init__] *)
Definition ColGrid_init (data : DataFrame) (x_cols : cols_spec)
    (y_cols : option cols_spec) (interact : string) (col_wrap : option nat)
    : res ColGrid :=
  if bool_decide (interact = "comb") && bool_decide (y_cols ≠ None)
  then Raise ValueError
  else
    let x_cols := match x_cols with OneCol s => [s] | ManyCols l => l end in
    let y_cols := match y_cols with
                  | None => [None]
                  | Some (OneCol s) => [Some s]
                  | Some (ManyCols l) => Some <$> l
                  end in
    let col_wrap := match col_wrap with
                    | None => 4 `min` (length x_cols * length y_cols)
                    | Some w => w
                    end in
    Ok (MkColGrid data x_cols y_cols interact col_wrap).

(** Rounded-up quotient, [int(np.ceil(a / b))] for [b > 0]. *)
Definition ceil_div (a b : nat) : nat := (a + b - 1) / b.

Section grid.
Variable plot : Type.

(** The pairs [ColGrid.map] iterates over and their number; the binomial
    coefficient of the ['comb'] mode takes [math.factorial(n - 2)], which
    raises on a negative argument. *)
Definition grid_pairs (g : ColGrid)
    : res (list (string * option string) * nat) :=
  if decide (interact g = "product") then
    Ok (list_prod (x_cols g) (y_cols g), length (x_cols g) * length (y_cols g))
  else if decide (interact g = "zip") then
    Ok (zip (x_cols g) (y_cols g), length (x_cols g) `min` length (y_cols g))
  else if decide (interact g = "comb") then
    let n := length (x_cols g) in
    if decide (n < 2) then Raise ValueError
    else Ok (map (λ ab : string * string, (ab.1, Some ab.2))
                 (combinations2 (x_cols g)),
             n * (n - 1) / 2)
  else Raise ValueError.

(** [ColGrid.map]: [func] receives the column names as [x=] and [y=], and
    whatever keyword arguments the caller passed on (here: [data]). *)
Definition ColGrid_map (g : ColGrid)
    (func : string → option string → option DataFrame → res plot)
    (data : option DataFrame) : res (list plot) :=
  '(xycol_iter, num_plots) ← grid_pairs g;
  if decide (col_wrap g = 0) then Raise ZeroDivisionError
  else
    let num_rows := ceil_div num_plots (col_wrap g) in
    if decide (num_rows = 0) then Raise ValueError
    else
      res_mapM (λ xy : string * option string, func xy.1 xy.2 data)
               (take (num_rows * col_wrap g) xycol_iter).

(** [ColGrid.map_dataframe] *)
Definition ColGrid_map_dataframe (g : ColGrid)
    (func : string → option string → option DataFrame → res plot)
    : res (list plot) :=
  ColGrid_map g func (Some (g_data g)).
End grid.

(** ** plots.py: [crosstab_plot], [_groupby_propplot], [proportion_plot] *)

(** How [x] and [y] reach a plotting helper: as column names, with or
    without the frame they name, or as two series. *)
Inductive xy_call : Type :=
  | Names (x y : string) (data : option DataFrame)
  | TwoSeries (x y : PdSeries).

(** What [x] or [y] is bound to once [data], if any, was indexed. *)
Inductive plot_arg : Type :=
  | PName (s : string)
  | PSeries (s : PdSeries).

(** The opening [if not data is None: x = data[x]; y = data[y]]. *)
Definition resolve_xy (c : xy_call) : res (plot_arg * plot_arg) :=
  match c with
  | Names x y (Some data) =>
      xs ← getitem data x;
      ys ← getitem data y;
      Ok (PSeries (x, xs), PSeries (y, ys))
  | Names x y None => Ok (PName x, PName y)
  | TwoSeries x y => Ok (PSeries x, PSeries y)
  end.

(** Binding the arguments of a call: more positional arguments than
    parameters, or a keyword that names no remaining parameter, is a
    [TypeError]. *)
Definition bind_call (params : list string) (n_positional : nat)
    (keywords : list string) : res unit :=
  if decide (length params < n_positional) then Raise TypeError
  else if decide (Forall (λ k, k ∈ drop n_positional params) keywords)
  then Ok ()
  else Raise TypeError.

(** [def numpy_crosstab(x, y, dropna=False, shownan=False)] *)
Definition numpy_crosstab_params : list string :=
  ["x"; "y"; "dropna"; "shownan"].

(** A method of [Series] called on a plain string is an
    [AttributeError]. *)
Definition as_series (a : plot_arg) : res PdSeries :=
  match a with
  | PSeries s => Ok s
  | PName _ => Raise AttributeError
  end.

(** [pd.concat([x, y], axis=1)]: only series (and frames) concatenate. *)
Definition pd_concat (x y : plot_arg) : res DataFrame :=
  match x, y with
  | PSeries x, PSeries y => Ok [x; y]
  | _, _ => Raise TypeError
  end.

Section plots.
Variable float_repr : Q → string.
Variable shape : Type.
Variable make_patch : string → string → bool → pyfloat → res shape.
Variable reordered_ind : Matrix → nat → string → string → res (list nat).
Variable plot : Type.
(** [df.groupby(x.name)[y.name].mean()] drawn by [sns.barplot]. *)
Variable barplot_of_means : DataFrame → plot.

Definition crosstab_plot (xy : xy_call) (dropna shownan : bool)
    (normalize : option string) : res Table :=
  '(x, y) ← resolve_xy xy;
  _ ← bind_call numpy_crosstab_params 2 ["dropna"; "shownan"; "normalize"];
  ys ← as_series y;
  xs ← as_series x;
  tab ← numpy_crosstab float_repr ys xs dropna shownan;
  _ ← heatmap shape make_patch reordered_ind (matrix_of_table tab) None
        "zaric" None None None
        false "euclidean" "average" false "euclidean" "average";
  Ok tab.

Definition _groupby_propplot (xy : xy_call) : res plot :=
  '(x, y) ← resolve_xy xy;
  df ← pd_concat x y;
  Ok (barplot_of_means df).

(** [_groupby_propplot] as [ColGrid.map] calls it; [y] has no default. *)
Definition groupby_propplot_func (x : string) (y : option string)
    (data : option DataFrame) : res plot :=
  match y with
  | Some y => _groupby_propplot (Names x y data)
  | None => Raise TypeError
  end.

(** [pd.get_dummies(s)] with its columns renamed to ["{prop_col}={level}"]:
    one indicator column per distinct non-missing value, the levels listed
    by their printed form. *)
Definition get_dummies_renamed (prop_col : string) (s : Series) : DataFrame :=
  let present := filter (λ v, pd_isnull v = false) s in
  let levels := np_unique (map (str_of_value float_repr) present) in
  map (λ l, (prop_col +:+ "=" +:+ l,
             map (λ v, if bool_decide (pd_isnull v = false
                                       ∧ str_of_value float_repr v = l)
                       then VFloat (Fin 1) else VFloat (Fin 0)) s))
      levels.

(** The grid built by one iteration of the loop of [proportion_plot]. *)
Definition proportion_grid (df : DataFrame) (x_col prop_col : string)
    : res ColGrid :=
  pc ← getitem df prop_col;
  let dumm := get_dummies_renamed prop_col pc in
  xc ← getitem df x_col;
  let dumm_df := (x_col, xc) :: dumm in
  ColGrid_init dumm_df (OneCol "Sex") (Some (ManyCols (columns dumm)))
    "product" None.

(** The result is the list of figures, or the only one when [prop_cols]
    was a single name. *)
Definition proportion_plot (df : DataFrame) (x_col : string)
    (prop_cols : cols_spec) : res (list (list plot)) :=
  let prop_cols := match prop_cols with
                   | OneCol s => [s]
                   | ManyCols l => l
                   end in
  res_mapM (λ prop_col,
              g ← proportion_grid df x_col prop_col;
              ColGrid_map plot g groupby_propplot_func None)
           prop_cols.
End plots.

(** * Specification-side definitions

    The notions the statements below are phrased with, the names that a
    call accepts, and the concrete tables and stand-in collaborators used
    to run the code. *)

(** ** Valid rows of a pair of columns *)

(** A numeric cell is invalid when it is not finite; a categorical cell
    when it is a missing-value marker. *)
Definition non_finite (v : value) : Prop :=
  v = VFloat NaN ∨ v = VFloat PosInf ∨ v = VFloat NegInf.
Definition missing_marker (v : value) : Prop :=
  v = VFloat NaN ∨ v = VNone.
Definition invalid (numeric : bool) (v : value) : Prop :=
  if numeric then non_finite v else missing_marker v.

#[global] Instance invalid_dec numeric v : Decision (invalid numeric v).
Proof. destruct numeric; simpl; unfold non_finite, missing_marker; apply _. Defined.

(** The rows of two aligned columns that are valid in both. *)
Definition valid_rows (n1 n2 : bool) (s1 s2 : Series) : list (value * value) :=
  filter (λ r, ¬ invalid n1 r.1 ∧ ¬ invalid n2 r.2) (zip s1 s2).

(** The mask [_make_finite] computes for one column, and its entries. *)
Definition col_mask (numeric : bool) (s : Series) : res (list bool) :=
  if numeric then np_isfinite s else Ok (map (λ v, negb (pd_isnull v)) s).
Definition code_valid (numeric : bool) (v : value) : bool :=
  if numeric then finite_value v else negb (pd_isnull v).

(** ** What [corr] computes for a pair *)

(** The kind of a pair, from the two membership tests of the loop body. *)
Definition pair_kind (n1 n2 : bool) : CorrType :=
  match n1, n2 with
  | true, true => num_vs_num
  | true, false => num_vs_cat
  | false, true => cat_vs_num
  | false, false => cat_vs_cat
  end.

(** The statistic of a pair on the cleaned columns [x], [y]: the value
    stored at [[col1, col2]], the one stored at [[col2, col1]], and the
    p-value stored at both. *)
Definition pair_stat
    (correlation_ratio theils_u theils_sym_u : Series → Series → res pyfloat)
    (corr_method : Series → Series → res (pyfloat * pyfloat))
    (sym_u n1 n2 : bool) (x y : Series) : res (pyfloat * pyfloat * pyfloat) :=
  match n1, n2 with
  | true, true => '(r, p) ← corr_method x y; Ok (r, r, p)
  | true, false => r ← correlation_ratio y x; Ok (r, r, Fin 0)
  | false, true => r ← correlation_ratio x y; Ok (r, r, Fin 0)
  | false, false =>
      if sym_u then u ← theils_sym_u x y; Ok (u, u, Fin 0)
      else u12 ← theils_u x y; u21 ← theils_u y x; Ok (u12, u21, Fin 0)
  end.

(** What one iteration of the loop computes for [(col1, col2)]. *)
Definition pair_outcome
    (correlation_ratio theils_u theils_sym_u : Series → Series → res pyfloat)
    (df : DataFrame) (numeric_inputs : gset string)
    (corr_method : Series → Series → res (pyfloat * pyfloat))
    (nan_strategy : string) (nan_replace_value : value) (sym_u : bool)
    (col1 col2 : string) (r12 r21 p : pyfloat) : Prop :=
  ∃ x y,
    _make_finite df col1 col2
      (bool_decide (col1 ∈ numeric_inputs)) (bool_decide (col2 ∈ numeric_inputs))
      nan_strategy nan_replace_value = Ok (x, y)
    ∧ pair_stat correlation_ratio theils_u theils_sym_u corr_method sym_u
        (bool_decide (col1 ∈ numeric_inputs))
        (bool_decide (col2 ∈ numeric_inputs)) x y
      = Ok (r12, r21, p).

(** The list of pairs visited by the loop never repeats an unordered pair
    and never pairs a column with itself. *)
Definition pairs_ok (l : list (string * string)) : Prop :=
  NoDup l ∧ ∀ a b, (a, b) ∈ l → a ≠ b ∧ (b, a) ∉ l.

(** The columns [corr] keeps, the set it treats as numeric, and the flag
    of a column. *)
Definition selected_columns
    (split_col_by_type : DataFrame → list string * list string)
    (df : DataFrame) (cat num : col_arg) : list string :=
  columns (_num_cat_select split_col_by_type df cat num).1.1.
Definition numeric_set
    (split_col_by_type : DataFrame → list string * list string)
    (df : DataFrame) (cat num : col_arg) : gset string :=
  (_num_cat_select split_col_by_type df cat num).2.
Definition numeric_flag
    (split_col_by_type : DataFrame → list string * list string)
    (df : DataFrame) (cat num : col_arg) (c : string) : bool :=
  bool_decide (c ∈ numeric_set split_col_by_type df cat num).

(** ** Cells the renderer suppresses *)

(** A cell is suppressed when its size is zero, or its colour is NaN, or
    its mask entry is true. *)
Definition size_is_zero (size : list pyfloat) (i : nat) : bool :=
  from_option float_is_zero false (size !! i).
Definition color_is_nan (color : list pyfloat) (i : nat) : bool :=
  from_option is_nan false (color !! i).
Definition is_masked (mask : option (list bool)) (i : nat) : bool :=
  from_option (λ m : list bool, default false (m !! i)) false mask.
Definition cell_suppressed (size color : list pyfloat)
    (mask : option (list bool)) (i : nat) : bool :=
  size_is_zero size i || color_is_nan color i || is_masked mask i.

(** The cells that must give a shape, with their positions, counted from
    [k]. *)
Definition emitted_cells (size color : list pyfloat) (mask : option (list bool))
    (k : nat) (cells : list (string * string * bool))
    : list (nat * (string * string * bool)) :=
  filter (λ ic, cell_suppressed size color mask ic.1 = false)
         (zip (seq k (length cells)) cells).

(** [s] is the shape made from the cell [ic]. *)
Definition patch_of (shape : Type)
    (make_patch : string → string → bool → pyfloat → res shape)
    (size : list pyfloat)
    (ic : nat * (string * string * bool)) (s : shape) : Prop :=
  ∃ sz, size !! ic.1 = Some sz
        ∧ make_patch ic.2.1.1 ic.2.1.2 ic.2.2 sz = Ok s.

(** ** Masks *)

(** [mask[i, j]], when the position exists. *)
Definition get2 {A} (m : list (list A)) (i j : nat) : option A :=
  row ← m !! i; row !! j.

(** The mask [corr_heatmap] starts from. *)
Definition initial_mask (r : Frame pyfloat) (mask : option (list (list bool)))
    : list (list bool) :=
  default (replicate (length (labels r)) (replicate (length (labels r)) false))
          mask.

(** Whether the steps of [corr_heatmap] mark position [(i, j)]. *)
Definition marked (p : Frame pyfloat) (p_bound : option pyfloat)
    (mask_diagonal : bool) (i j : nat) : bool :=
  from_option (λ b, p_ge p b (i, j)) false p_bound
  || (mask_diagonal && bool_decide (i = j)).

(** Strictly greater, the comparison "exceeds" names. *)
Definition float_gt (a b : pyfloat) : bool :=
  float_ge a b && negb (float_ge b a).

(** ** Names a call accepts *)

Definition known_strategy (s : string) : Prop := s = "mask" ∨ s = "replace".
Definition known_map_type (map_type : string) : Prop :=
  map_type = "zaric" ∨ map_type = "standard" ∨ map_type = "dendrograms".
Definition known_interact (s : string) : Prop :=
  s = "product" ∨ s = "zip" ∨ s = "comb".

(** ** Sums over a crosstab *)

(** The sum of all cells of a table. *)
Definition table_sum (t : Table) : Z :=
  foldr Z.add 0%Z (concat (tvalues t)).

(** The number of rows in which [x] or [y] holds a missing-value marker. *)
Definition missing_rows (x y : Series) : nat :=
  length (filter (λ r : value * value, pd_isnull r.1 || pd_isnull r.2 = true)
                 (zip x y)).

(** The sum of all cells expected with [dropna=False]: every row, less the
    rows with a missing-value marker when [shownan=False]. *)
Definition expected_sum (x y : Series) (shownan : bool) : Z :=
  if shownan then Z.of_nat (length x)
  else Z.of_nat (length x - missing_rows x y).

(** ** Concrete tables and stand-in collaborators *)

Definition dfAB : DataFrame :=
  [("A", [VFloat (Fin 1); VFloat (Fin 2); VFloat (Fin 3); VFloat NaN]);
   ("B", [VStr "x"; VStr "y"; VStr "x"; VStr "y"])].
Definition dfXY : DataFrame :=
  [("X", [VStr "a"; VStr "a"; VStr "b"; VStr "b"]);
   ("Y", [VStr "p"; VStr "q"; VStr "r"; VStr "s"])].
Definition dfA : DataFrame := [("A", [VFloat (Fin 1); VFloat (Fin 2)])].
Definition dfNum : DataFrame :=
  [("a", [VFloat (Fin 1); VFloat (Fin 2); VFloat (Fin 4)]);
   ("b", [VFloat (Fin 2); VFloat (Fin 3); VFloat (Fin 3)])].
Definition dfTitanic : DataFrame :=
  [("Sex", [VStr "m"; VStr "f"; VStr "f"]);
   ("Age", [VStr "old"; VStr "young"; VStr "old"]);
   ("Cls", [VStr "a"; VStr "b"; VStr "a"])].

(** Stand-ins for the external statistics, used to run [corr] on concrete
    tables: [rows_stat] returns the number of rows it was given,
    [distinct_stat] the number of distinct values of its first argument,
    [const_stat2] a fixed coefficient with the p-value 0.05. *)
Definition float_of_nat (n : nat) : pyfloat := Fin (inject_Z (Z.of_nat n)).
Definition rows_stat (x y : Series) : res pyfloat :=
  Ok (float_of_nat (length x)).
Definition rows_stat2 (x y : Series) : res (pyfloat * pyfloat) :=
  Ok (float_of_nat (length x), float_of_nat (length y)).
Definition distinct_stat (x y : Series) : res pyfloat :=
  Ok (float_of_nat (length (remove_dups x))).
Definition const_stat2 (x y : Series) : res (pyfloat * pyfloat) :=
  Ok (Fin (1 # 2), Fin (1 # 20)).
Definition no_split (df : DataFrame) : list string * list string := ([], []).

(** Stand-ins for the drawing collaborators: a shape records the cell it
    was made from, clustering keeps the order. *)
Abbreviation demo_shape := (string * string * bool * pyfloat)%type.
Definition demo_patch (cx cy : string) (circ : bool) (sz : pyfloat)
    : res demo_shape := Ok (cx, cy, circ, sz).
Definition demo_reorder (df : Matrix) (axis : nat) (metric method : string)
    : res (list nat) := Ok (seq 0 (length (m_index df))).
Definition demo_repr (q : Q) : string := "1.0".

Abbreviation corr_demo :=
  (corr no_split rows_stat2 rows_stat distinct_stat rows_stat).
Abbreviation corr_heatmap_demo :=
  (corr_heatmap demo_shape demo_patch demo_reorder no_split const_stat2
     rows_stat distinct_stat rows_stat).
Abbreviation crosstab_plot_demo :=
  (crosstab_plot demo_repr demo_shape demo_patch demo_reorder).
Abbreviation proportion_plot_demo :=
  (proportion_plot demo_repr DataFrame (λ df, df)).

(** * Properties *)

Ltac by_computation := apply (bool_decide_unpack _); vm_compute; exact I.

(** ** [combinations] *)

Lemma elem_of_combinations2 {A} (l : list A) (a b : A) :
  (a, b) ∈ combinations2 l → a ∈ l ∧ b ∈ l.
Proof.
  induction l as [|x l IH]; simpl; [by intros ?%elem_of_nil|].
  rewrite elem_of_app, list_elem_of_fmap.
  intros [(y & [= -> ->] & Hy)|H].
  - split; [left | by right].
  - destruct (IH H). split; by right.
Qed.

Lemma combinations2_irrefl {A} (l : list A) (a b : A) :
  NoDup l → (a, b) ∈ combinations2 l → a ≠ b ∧ (b, a) ∉ combinations2 l.
Proof.
  induction 1 as [|x l Hx Hl IH]; simpl; [by intros ?%elem_of_nil|].
  rewrite !elem_of_app, !list_elem_of_fmap.
  intros [(y & [= -> ->] & Hy)|H].
  - split; [by intros ->|].
    intros [(z & [= -> ->] & Hz)|H']; [done|].
    by apply elem_of_combinations2 in H' as [_ ?].
  - destruct (IH H) as [Hne Hsw]. split; [done|].
    intros [(z & [= -> ->] & Hz)|H']; [|done].
    by apply elem_of_combinations2 in H as [_ ?].
Qed.

Lemma combinations2_total {A} (l : list A) (a b : A) :
  a ∈ l → b ∈ l → a ≠ b →
  (a, b) ∈ combinations2 l ∨ (b, a) ∈ combinations2 l.
Proof.
  induction l as [|x l IH]; simpl; [by intros ?%elem_of_nil|].
  rewrite !elem_of_cons, !elem_of_app, !list_elem_of_fmap.
  intros [->|Ha] [->|Hb] Hne; try done.
  - left; left; eauto.
  - right; left; eauto.
  - destruct (IH Ha Hb Hne); [left|right]; by right.
Qed.

Lemma combinations2_lookup {A} (l : list A) (a b : A) :
  (a, b) ∈ combinations2 l ↔
  ∃ i j, i < j ∧ l !! i = Some a ∧ l !! j = Some b.
Proof.
  induction l as [|x l IH]; simpl.
  - split; [by intros ?%elem_of_nil|]. by intros (i & j & _ & ? & _).
  - rewrite elem_of_app, list_elem_of_fmap, IH. split.
    + intros [(y & [= -> ->] & (j & Hj)%list_elem_of_lookup)|(i & j & ? & ? & ?)].
      * exists 0, (S j). split; [lia|done].
      * exists (S i), (S j). split; [lia|done].
    + intros (i & j & Hij & Hi & Hj).
      destruct j as [|j]; [lia|]. destruct i as [|i]; simpl in *.
      * injection Hi as ->. left. exists b. split; [done|].
        by eapply list_elem_of_lookup_2.
      * right. exists i, j. split; [lia|done].
Qed.

Lemma select_rows_cons {A} (v : A) vs (b : bool) mask :
  select_rows (v :: vs) (b :: mask)
  = if b then v :: select_rows vs mask else select_rows vs mask.
Proof.
  unfold select_rows. cbn [zip zip_with]. rewrite filter_cons. cbn [snd].
  destruct b; by case_decide.
Qed.

Lemma np_take_cons {A} (values : list A) i index :
  np_take values (i :: index)
  = match values !! i with
    | Some v => bs ← np_take values index; Ok (v :: bs)
    | None => Raise IndexError
    end.
Proof. unfold np_take. cbn [res_mapM]. by destruct (values !! i). Qed.

Lemma np_take_where {A} (pre vs : list A) (mask : list bool) :
  length mask ≤ length vs →
  np_take (pre ++ vs) (np_where_from (length pre) mask) = Ok (select_rows vs mask).
Proof.
  revert pre vs. induction mask as [|b mask IH]; intros pre vs Hlen.
  - by destruct vs.
  - destruct vs as [|v vs]; simpl in Hlen; [lia|].
    specialize (IH (pre ++ [v]) vs).
    rewrite length_app, <-(assoc_L (++)) in IH. simpl in IH.
    replace (length pre + 1) with (S (length pre)) in IH by lia.
    rewrite select_rows_cons. cbn [np_where_from]. destruct b.
    + rewrite np_take_cons, lookup_app_r, Nat.sub_diag by lia. cbn [lookup list_lookup].
      rewrite IH by lia. done.
    + apply IH. lia.
Qed.

Lemma select_rows_and_l {A B} (f1 : A → bool) (f2 : B → bool) (s1 : list A) (s2 : list B) :
  select_rows s1 (np_logical_and (map f1 s1) (map f2 s2))
  = (filter (λ r : A * B, f1 r.1 && f2 r.2 = true) (zip s1 s2)).*1.
Proof.
  unfold np_logical_and.
  revert s2. induction s1 as [|a s1 IH]; intros [|b s2]; try done.
  cbn [map zip_with]. rewrite select_rows_cons, filter_cons, IH. cbn [fst snd].
  destruct (f1 a && f2 b); by case_decide.
Qed.

Lemma select_rows_and_r {A B} (f1 : A → bool) (f2 : B → bool) (s1 : list A) (s2 : list B) :
  select_rows s2 (np_logical_and (map f1 s1) (map f2 s2))
  = (filter (λ r : A * B, f1 r.1 && f2 r.2 = true) (zip s1 s2)).*2.
Proof.
  unfold np_logical_and.
  revert s2. induction s1 as [|a s1 IH]; intros [|b s2]; try done.
  cbn [map zip_with]. rewrite select_rows_cons, filter_cons, IH. cbn [fst snd].
  destruct (f1 a && f2 b); by case_decide.
Qed.

Lemma length_logical_and_l (m1 m2 : list bool) :
  length (np_logical_and m1 m2) ≤ length m1.
Proof. unfold np_logical_and. rewrite length_zip_with. lia. Qed.
Lemma length_logical_and_r (m1 m2 : list bool) :
  length (np_logical_and m1 m2) ≤ length m2.
Proof. unfold np_logical_and. rewrite length_zip_with. lia. Qed.

Lemma col_mask_Ok numeric s m :
  col_mask numeric s = Ok m →
  m = map (code_valid numeric) s
  ∧ (numeric = true → Forall (λ v, is_number v = true) s).
Proof.
  unfold col_mask, np_isfinite, numeric_dtype. destruct numeric; simpl.
  - destruct (forallb is_number s) eqn:E; [|done]. intros [= <-].
    split; [done|]. intros _. apply Forall_forall. intros v Hv.
    rewrite forallb_forall in E. apply E. by apply list_elem_of_In.
  - intros [= <-]. split; [done|]. done.
Qed.

Lemma code_valid_spec numeric v :
  (numeric = true → is_number v = true) →
  code_valid numeric v = true ↔ ¬ invalid numeric v.
Proof.
  unfold invalid, non_finite, missing_marker.
  destruct numeric; simpl; intros Hn.
  - destruct v as [[]| |]; simpl; try (specialize (Hn eq_refl); discriminate Hn);
      intuition congruence.
  - destruct v as [[]| |]; simpl; intuition congruence.
Qed.

Lemma filter_ext_Forall {A} (P Q : A → Prop) `{∀ x, Decision (P x)} `{∀ x, Decision (Q x)} (l : list A) :
  Forall (λ x, P x ↔ Q x) l → filter P l = filter Q l.
Proof.
  induction 1 as [|x l Hx _ IH]; [done|].
  rewrite !filter_cons, IH. repeat case_decide; tauto.
Qed.

Lemma make_finite_mask df col1 col2 n1 n2 rv x y :
  _make_finite df col1 col2 n1 n2 "mask" rv = Ok (x, y) →
  ∃ s1 s2, assoc df col1 = Some s1 ∧ assoc df col2 = Some s2
    ∧ x = (valid_rows n1 n2 s1 s2).*1 ∧ y = (valid_rows n1 n2 s1 s2).*2.
Proof.
  unfold _make_finite, getitem. intros H.
  destruct (assoc df col1) as [s1|]; [|done].
  simpl in H. fold (col_mask n1 s1) in H.
  destruct (col_mask n1 s1) as [m1|] eqn:E1; [|done]. simpl in H.
  destruct (assoc df col2) as [s2|]; [|done].
  simpl in H. fold (col_mask n2 s2) in H.
  destruct (col_mask n2 s2) as [m2|] eqn:E2; [|done]. simpl in H.
  apply col_mask_Ok in E1 as [-> F1], E2 as [-> F2].
  unfold np_where in H.
  rewrite (np_take_where [] s1), (np_take_where [] s2) in H.
  2:{ etrans; [apply length_logical_and_r|]. by rewrite length_map. }
  2:{ etrans; [apply length_logical_and_l|]. by rewrite length_map. }
  simpl in H. injection H as <- <-.
  exists s1, s2. split_and!; [done..| |].
  - rewrite select_rows_and_l. unfold valid_rows. f_equal.
    apply filter_ext_Forall, Forall_forall. intros [a b] Hab.
    apply elem_of_zip_l in Hab as Ha. apply elem_of_zip_r in Hab as Hb. simpl.
    rewrite andb_true_iff, !code_valid_spec; [done|..]; intros ->.
    + by eapply Forall_forall in F2.
    + by eapply Forall_forall in F1.
  - rewrite select_rows_and_r. unfold valid_rows. f_equal.
    apply filter_ext_Forall, Forall_forall. intros [a b] Hab.
    apply elem_of_zip_l in Hab as Ha. apply elem_of_zip_r in Hab as Hb. simpl.
    rewrite andb_true_iff, !code_valid_spec; [done|..]; intros ->.
    + by eapply Forall_forall in F2.
    + by eapply Forall_forall in F1.
Qed.

(** ** Frames *)

Lemma loc_full_frame {V} (cols : list string) (v : V) a b :
  a ∈ cols → b ∈ cols → loc (full_frame cols v) a b = Some v.
Proof.
  intros Ha Hb. unfold loc, full_frame. simpl.
  rewrite lookup_gset_to_gmap, option_guard_True; [done|].
  rewrite elem_of_list_to_set, list_elem_of_In.
  apply in_prod; by apply list_elem_of_In.
Qed.

Lemma loc_set_eq {V} (f : Frame V) a b v : loc (loc_set f a b v) a b = Some v.
Proof. unfold loc, loc_set. simpl. apply lookup_insert_eq. Qed.

Lemma loc_set_ne {V} (f : Frame V) a b a' b' v :
  (a, b) ≠ (a', b') → loc (loc_set f a b v) a' b' = loc f a' b'.
Proof. intros. unfold loc, loc_set. simpl. by apply lookup_insert_ne. Qed.

Lemma loc_set_sym_ne {V} (f : Frame V) a b a' b' v w :
  (a, b) ≠ (a', b') → (b, a) ≠ (a', b') →
  loc (loc_set (loc_set f a b v) b a w) a' b' = loc f a' b'.
Proof. intros. by rewrite !loc_set_ne. Qed.

Lemma loc_set_sym_l {V} (f : Frame V) a b v w :
  a ≠ b → loc (loc_set (loc_set f a b v) b a w) a b = Some v.
Proof. intros. rewrite loc_set_ne by congruence. apply loc_set_eq. Qed.

Lemma loc_set_sym_r {V} (f : Frame V) a b v w :
  loc (loc_set (loc_set f a b v) b a w) b a = Some w.
Proof. apply loc_set_eq. Qed.

Section corr_props.
Variable split_col_by_type : DataFrame → list string * list string.
Variable pearsonr : Series → Series → res (pyfloat * pyfloat).
Variable correlation_ratio : Series → Series → res pyfloat.
Variable theils_u : Series → Series → res pyfloat.
Variable theils_sym_u : Series → Series → res pyfloat.

Section loop.
Variable df : DataFrame.
Variable numeric_inputs : gset string.
Variable corr_method : Series → Series → res (pyfloat * pyfloat).
Variable nan_strategy : string.
Variable nan_replace_value : value.
Variable sym_u : bool.

#[local] Abbreviation step := (corr_pair correlation_ratio theils_u theils_sym_u
                    df numeric_inputs corr_method nan_strategy
                    nan_replace_value sym_u).
#[local] Abbreviation numeric c := (bool_decide (c ∈ numeric_inputs)).
#[local] Abbreviation outcome :=
  (pair_outcome correlation_ratio theils_u theils_sym_u df numeric_inputs
     corr_method nan_strategy nan_replace_value sym_u).

Lemma corr_pair_Ok fs col1 col2 fs' :
  step fs (col1, col2) = Ok fs' →
  ∃ r12 r21 p, outcome col1 col2 r12 r21 p
    ∧ fs' = assign_pair fs col1 col2 r12 r21 p
              (pair_kind (numeric col1) (numeric col2)).
Proof.
  unfold corr_pair, pair_outcome, pair_stat. intros H.
  destruct (decide (col1 ∈ numeric_inputs)) as [H1|H1];
    destruct (decide (col2 ∈ numeric_inputs)) as [H2|H2];
    rewrite ?(bool_decide_eq_true_2 _ H1), ?(bool_decide_eq_false_2 _ H1),
      ?(bool_decide_eq_true_2 _ H2), ?(bool_decide_eq_false_2 _ H2);
    cbn [pair_kind];
    (destruct (_make_finite _ _ _ _ _ _ _) as [[x y]|e]; cbn in H; [|done]).
  - destruct (corr_method x y) as [[r p]|e] eqn:E; cbn in H; [|done].
    injection H as <-. do 3 eexists. split; [exists x, y; rewrite E|]; done.
  - destruct (correlation_ratio y x) as [r|e] eqn:E; cbn in H; [|done].
    injection H as <-. do 3 eexists. split; [exists x, y; rewrite E|]; done.
  - destruct (correlation_ratio x y) as [r|e] eqn:E; cbn in H; [|done].
    injection H as <-. do 3 eexists. split; [exists x, y; rewrite E|]; done.
  - destruct sym_u.
    + destruct (theils_sym_u x y) as [r|e] eqn:E; cbn in H; [|done].
      injection H as <-. do 3 eexists. split; [exists x, y; rewrite E|]; done.
    + destruct (theils_u x y) as [r|e] eqn:E; cbn in H; [|done].
      destruct (theils_u y x) as [r'|e] eqn:E'; cbn in H; [|done].
      injection H as <-. do 3 eexists. split; [exists x, y; rewrite E, E'|]; done.
Qed.

Lemma pairs_ok_cons pr l : pairs_ok (pr :: l) → pairs_ok l.
Proof.
  intros [Hnd Hsym]. split; [by apply NoDup_cons in Hnd as [_ ?]|].
  intros a b Hab. destruct (Hsym a b) as [? Hn]; [by right|].
  split; [done|]. intros ?. apply Hn. by right.
Qed.

Lemma loop_labels l fs fs' :
  res_foldM step fs l = Ok fs' →
  labels (df_r fs') = labels (df_r fs)
  ∧ labels (df_p fs') = labels (df_p fs)
  ∧ labels (df_ct fs') = labels (df_ct fs).
Proof.
  revert fs. induction l as [|[c1 c2] l IH]; intros fs H.
  - by injection H as <-.
  - cbn [res_foldM] in H. destruct (step fs (c1, c2)) as [fs1|] eqn:E; [|done].
    apply corr_pair_Ok in E as (r12 & r21 & p & _ & ->).
    by apply IH in H.
Qed.

Lemma loop_untouched l fs fs' a b :
  res_foldM step fs l = Ok fs' → (a, b) ∉ l → (b, a) ∉ l →
  loc (df_r fs') a b = loc (df_r fs) a b
  ∧ loc (df_p fs') a b = loc (df_p fs) a b
  ∧ loc (df_ct fs') a b = loc (df_ct fs) a b.
Proof.
  revert fs. induction l as [|[c1 c2] l IH]; intros fs H Hab Hba.
  - by injection H as <-.
  - cbn [res_foldM] in H. destruct (step fs (c1, c2)) as [fs1|] eqn:E; [|done].
    apply corr_pair_Ok in E as (r12 & r21 & p & _ & ->).
    apply not_elem_of_cons in Hab as [Hab1 Hab], Hba as [Hba1 Hba].
    destruct (IH _ H Hab Hba) as (-> & -> & ->).
    unfold assign_pair. cbn [df_r df_p df_ct].
    rewrite !loc_set_sym_ne; [done|congruence..].
Qed.

Lemma loop_written l fs fs' col1 col2 :
  pairs_ok l → res_foldM step fs l = Ok fs' → (col1, col2) ∈ l →
  ∃ r12 r21 p,
    outcome col1 col2 r12 r21 p
    ∧ loc (df_r fs') col1 col2 = Some r12 ∧ loc (df_r fs') col2 col1 = Some r21
    ∧ loc (df_p fs') col1 col2 = Some p ∧ loc (df_p fs') col2 col1 = Some p
    ∧ loc (df_ct fs') col1 col2
      = Some (CtTag (pair_kind (numeric col1) (numeric col2)))
    ∧ loc (df_ct fs') col2 col1
      = Some (CtTag (pair_kind (numeric col1) (numeric col2))).
Proof.
  revert fs. induction l as [|[c1 c2] l IH]; intros fs Hok H Hin.
  - by apply elem_of_nil in Hin.
  - cbn [res_foldM] in H. destruct (step fs (c1, c2)) as [fs1|] eqn:E; [|done].
    apply elem_of_cons in Hin as [[= -> ->]|Hin].
    2:{ eapply IH; [by eapply pairs_ok_cons|done..]. }
    apply corr_pair_Ok in E as (r12 & r21 & p & Hout & ->).
    destruct Hok as [Hnd Hsym]. apply NoDup_cons in Hnd as [Hfresh _].
    destruct (Hsym c1 c2) as [Hne Hsw]; [by left|].
    apply not_elem_of_cons in Hsw as [_ Hsw].
    destruct (loop_untouched _ _ _ c1 c2 H) as (-> & -> & ->); [done..|].
    destruct (loop_untouched _ _ _ c2 c1 H) as (-> & -> & ->); [done..|].
    exists r12, r21, p. unfold assign_pair. cbn [df_r df_p df_ct].
    rewrite !loc_set_sym_l, !loc_set_sym_r by done. done.
Qed.

End loop.
End corr_props.

Lemma assoc_Some df c : c ∈ columns df → ∃ s, assoc df c = Some s.
Proof.
  unfold columns. induction df as [|[c' s'] df IH]; cbn.
  - by intros ?%elem_of_nil.
  - intros [->|Hin]%elem_of_cons; case_decide; eauto; done.
Qed.

Lemma columns_filter_sub (P : string * Series → Prop) `{∀ x, Decision (P x)} df c :
  c ∈ columns (filter P df) → c ∈ columns df.
Proof.
  unfold columns. rewrite !list_elem_of_fmap.
  intros (x & -> & Hx%list_elem_of_filter). exists x. tauto.
Qed.

Lemma columns_filter_NoDup (P : string * Series → Prop) `{∀ x, Decision (P x)} df :
  NoDup (columns df) → NoDup (columns (filter P df)).
Proof.
  unfold columns. induction df as [|[c s] df IH]; [done|].
  rewrite filter_cons, fmap_cons. intros [Hc Hnd]%NoDup_cons.
  case_decide; [|by apply IH]. rewrite fmap_cons. apply NoDup_cons.
  split; [|by apply IH]. intros Hin. apply Hc.
  by apply (columns_filter_sub P) in Hin.
Qed.

Lemma np_logical_and_comm (a b : list bool) :
  np_logical_and a b = np_logical_and b a.
Proof.
  unfold np_logical_and. revert b.
  induction a as [|x a IH]; intros [|y b]; cbn; [done..|].
  by rewrite IH, andb_comm.
Qed.

Lemma make_finite_swap df c1 c2 n1 n2 m rv x y :
  _make_finite df c1 c2 n1 n2 m rv = Ok (x, y) →
  _make_finite df c2 c1 n2 n1 m rv = Ok (y, x).
Proof.
  unfold _make_finite, getitem.
  destruct (assoc df c1) as [s1|]; [|done]. cbn.
  destruct (if n1 then np_isfinite s1 else _) as [m1|]; [|done]. cbn.
  destruct (assoc df c2) as [s2|]; [|done]. cbn.
  destruct (if n2 then np_isfinite s2 else _) as [m2|]; [|done]. cbn.
  repeat case_decide; [| |done].
  - rewrite (np_logical_and_comm m2 m1).
    destruct (np_take s1 _) as [x'|]; [|done]. cbn.
    destruct (np_take s2 _) as [y'|]; [|done]. cbn. by intros [= <- <-].
  - by intros [= <- <-].
Qed.

Lemma make_finite_unknown_raises df c1 c2 n1 n2 m rv :
  m ≠ "mask" → m ≠ "replace" → raises (_make_finite df c1 c2 n1 n2 m rv).
Proof.
  intros H1 H2. unfold _make_finite, raises.
  destruct (getitem df c1) as [s1|]; cbn; [|eauto].
  destruct (if n1 then np_isfinite s1 else _) as [m1|]; cbn; [|eauto].
  destruct (getitem df c2) as [s2|]; cbn; [|eauto].
  destruct (if n2 then np_isfinite s2 else _) as [m2|]; cbn; [|eauto].
  repeat case_decide; try done. eauto.
Qed.

Lemma make_finite_unknown_ValueError df c1 c2 n1 n2 m rv s1 s2 :
  m ≠ "mask" → m ≠ "replace" →
  assoc df c1 = Some s1 → assoc df c2 = Some s2 →
  (n1 = true → numeric_dtype s1 = true) →
  (n2 = true → numeric_dtype s2 = true) →
  _make_finite df c1 c2 n1 n2 m rv = Raise ValueError.
Proof.
  intros H1 H2 E1 E2 D1 D2. unfold _make_finite, getitem, np_isfinite.
  rewrite E1. cbn.
  destruct n1; [rewrite D1 by done|]; cbn; rewrite E2; cbn;
    (destruct n2; [rewrite D2 by done|]); cbn; by repeat case_decide.
Qed.

Section corr_facts.
Variable split_col_by_type : DataFrame → list string * list string.
Variable pearsonr : Series → Series → res (pyfloat * pyfloat).
Variable correlation_ratio : Series → Series → res pyfloat.
Variable theils_u : Series → Series → res pyfloat.
Variable theils_sym_u : Series → Series → res pyfloat.

#[local] Abbreviation corr' :=
  (corr split_col_by_type pearsonr correlation_ratio theils_u theils_sym_u).
#[local] Abbreviation select := (_num_cat_select split_col_by_type).
#[local] Abbreviation pair_stat' :=
  (pair_stat correlation_ratio theils_u theils_sym_u).

Lemma select_filter df cat num :
  ∃ X : gset string,
    (select df cat num).1.1 = filter (λ cs : string * Series, cs.1 ∈ X) df.
Proof.
  unfold _num_cat_select.
  destruct cat, num; destruct (split_col_by_type df); eexists; reflexivity.
Qed.

Lemma selected_columns_sub df cat num c :
  c ∈ selected_columns split_col_by_type df cat num → c ∈ columns df.
Proof.
  unfold selected_columns. destruct (select_filter df cat num) as [X ->].
  apply columns_filter_sub.
Qed.

Lemma selected_columns_NoDup df cat num :
  NoDup (columns df) → NoDup (selected_columns split_col_by_type df cat num).
Proof.
  unfold selected_columns. destruct (select_filter df cat num) as [X ->].
  apply columns_filter_NoDup.
Qed.

Lemma selected_pairs_ok df cat num :
  NoDup (columns df) → pairs_ok (combinations2 (selected_columns split_col_by_type df cat num)).
Proof.
  intros Hnd%(selected_columns_NoDup _ cat num). split.
  - induction Hnd as [|x l Hx Hl IH]; cbn; [constructor|].
    apply NoDup_app. split_and!; [|intros [a b] Ha Hb|done].
    + apply NoDup_fmap_2; [|done]. by intros ?? [= ->].
    + apply list_elem_of_fmap in Ha as (y & [= -> ->] & _).
      by apply elem_of_combinations2 in Hb as [? _].
  - intros a b. by apply combinations2_irrefl.
Qed.

Section run.
Variable df : DataFrame.
Variable categorical_inputs numeric_inputs : col_arg.
Variable corr_method : option (Series → Series → res (pyfloat * pyfloat)).
Variable nan_strategy : string.
Variable nan_replace_value : value.
Variable return_corr_types sym_u : bool.

#[local] Abbreviation cols := (selected_columns split_col_by_type df categorical_inputs numeric_inputs).
#[local] Abbreviation nums := (numeric_set split_col_by_type df categorical_inputs numeric_inputs).
#[local] Abbreviation flag c := (bool_decide (c ∈ nums)).
#[local] Abbreviation run :=
  (corr' df categorical_inputs numeric_inputs corr_method nan_strategy
         nan_replace_value return_corr_types sym_u).
#[local] Abbreviation loop :=
  (res_foldM (corr_pair correlation_ratio theils_u theils_sym_u df nums
                (default pearsonr corr_method) nan_strategy
                nan_replace_value sym_u)).
#[local] Abbreviation fs0 :=
  (MkFrames (full_frame cols (Fin 1)) (full_frame cols (Fin 0))
            (full_frame cols CtZero)).

Lemma corr_unfold :
  run = fs ← loop fs0 (combinations2 cols);
        if return_corr_types then Ok (df_r fs, df_p fs, Some (df_ct fs))
        else Ok (df_r fs, df_p fs, None).
Proof.
  unfold corr, selected_columns, numeric_set.
  by destruct (select df categorical_inputs numeric_inputs) as [[??]?].
Qed.

Lemma corr_Ok r p oct :
  run = Ok (r, p, oct) →
  ∃ fs, loop fs0 (combinations2 cols) = Ok fs
    ∧ r = df_r fs ∧ p = df_p fs
    ∧ oct = (if return_corr_types then Some (df_ct fs) else None).
Proof.
  rewrite corr_unfold. destruct (loop _ _) as [fs|]; [|done]. cbn.
  exists fs. by destruct return_corr_types; injection H as <- <- <-.
Qed.

Lemma corr_labels r p oct :
  run = Ok (r, p, oct) →
  labels r = cols ∧ labels p = cols ∧ ∀ ct, oct = Some ct → labels ct = cols.
Proof.
  intros (fs & Hl & -> & -> & ->)%corr_Ok.
  apply loop_labels in Hl as (-> & -> & Hct). split_and!; [done..|].
  intros ct. destruct return_corr_types; [|done]. by intros [= <-].
Qed.

(** What the loop leaves in the cells of a visited pair. *)
Lemma corr_pair_cells r p oct col1 col2 :
  NoDup (columns df) → run = Ok (r, p, oct) →
  (col1, col2) ∈ combinations2 cols →
  ∃ r12 r21 pv,
    pair_outcome correlation_ratio theils_u theils_sym_u df nums
      (default pearsonr corr_method) nan_strategy nan_replace_value sym_u
      col1 col2 r12 r21 pv
    ∧ loc r col1 col2 = Some r12 ∧ loc r col2 col1 = Some r21
    ∧ loc p col1 col2 = Some pv ∧ loc p col2 col1 = Some pv
    ∧ ∀ ct, oct = Some ct →
        loc ct col1 col2 = Some (CtTag (pair_kind (flag col1) (flag col2)))
        ∧ loc ct col2 col1 = Some (CtTag (pair_kind (flag col1) (flag col2))).
Proof.
  intros Hnd (fs & Hl & -> & -> & ->)%corr_Ok Hin.
  destruct (loop_written _ _ _ _ _ _ _ _ _ _ _ _ _ _
              (selected_pairs_ok _ _ _ Hnd) Hl Hin)
    as (r12 & r21 & pv & Hout & ? & ? & ? & ? & ? & ?).
  exists r12, r21, pv. split_and!; [done..|].
  intros ct. destruct return_corr_types; [|done]. by intros [= <-].
Qed.

(** What the loop leaves on the diagonal. *)
Lemma corr_diag_cells r p oct c :
  NoDup (columns df) → run = Ok (r, p, oct) → c ∈ cols →
  loc r c c = Some (Fin 1) ∧ loc p c c = Some (Fin 0)
  ∧ ∀ ct, oct = Some ct → loc ct c c = Some CtZero.
Proof.
  intros Hnd (fs & Hl & -> & -> & ->)%corr_Ok Hin.
  destruct (selected_pairs_ok _ categorical_inputs numeric_inputs Hnd)
    as [_ Hirr].
  destruct (loop_untouched _ _ _ _ _ _ _ _ _ _ _ _ c c Hl)
    as (-> & -> & Hct); [by intros [? _]%Hirr..|].
  cbn [df_r df_p df_ct]. rewrite !loc_full_frame by done.
  split_and!; [done..|].
  intros ct. destruct return_corr_types; [|done]. intros [= <-].
  rewrite Hct. by apply loc_full_frame.
Qed.

(** With fewer than two selected columns the loop body never runs. *)
Lemma corr_few_columns :
  length cols ≤ 1 →
  run = Ok (full_frame cols (Fin 1), full_frame cols (Fin 0),
            if return_corr_types then Some (full_frame cols CtZero) else None).
Proof.
  intros Hlen. rewrite corr_unfold.
  destruct cols as [|c [|c' l]]; cbn in Hlen; [| |lia];
    cbn; by destruct return_corr_types.
Qed.

(** With two or more, the first iteration already calls [_make_finite]. *)
Lemma corr_first_pair col1 col2 rest :
  cols = col1 :: col2 :: rest →
  ∀ e, _make_finite df col1 col2 (flag col1) (flag col2)
         nan_strategy nan_replace_value = Raise e →
  run = Raise e.
Proof.
  intros Hc e He. rewrite corr_unfold, Hc. cbn [combinations2 map app res_foldM].
  unfold corr_pair.
  destruct (decide (col1 ∈ nums)) as [H1|H1];
    destruct (decide (col2 ∈ nums)) as [H2|H2];
    rewrite ?(bool_decide_eq_true_2 _ H1), ?(bool_decide_eq_false_2 _ H1),
      ?(bool_decide_eq_true_2 _ H2), ?(bool_decide_eq_false_2 _ H2) in He;
    by rewrite He.
Qed.

End run.
End corr_facts.

(** ** The shapes emitted by the geometry-based renderer *)

Lemma getidx_Ok {A} (a : list A) i v : getidx a i = Ok v ↔ a !! i = Some v.
Proof. unfold getidx. destruct (a !! i); split; congruence. Qed.

Lemma cell_skipped_Ok size color mask i b :
  cell_skipped size color mask i = Ok b → b = cell_suppressed size color mask i.
Proof.
  unfold cell_skipped, cell_suppressed, size_is_zero, color_is_nan, is_masked.
  unfold getidx.
  destruct (size !! i) as [s|]; cbn; [|done].
  destruct (float_is_zero s); cbn; [congruence|].
  destruct (color !! i) as [c|]; cbn; [|done].
  destruct (is_nan c); cbn; [congruence|].
  destruct mask as [m|]; cbn; [|congruence].
  destruct (m !! i); cbn; congruence.
Qed.

Section zaric_facts.
Variable shape : Type.
Variable make_patch : string → string → bool → pyfloat → res shape.

Lemma zaric_loop_spec size color mask annot cells k coll k' coll' :
  res_foldM (zaric_cell shape make_patch size color mask annot)
    (k, coll) cells = Ok (k', coll') →
  k' = k + length cells
  ∧ ∃ new,
      patch_col coll' = patch_col coll ++ new
      ∧ Forall2 (patch_of shape make_patch size) (emitted_cells size color mask k cells) new
      ∧ patch_col_ind coll'
        = patch_col_ind coll ++ (emitted_cells size color mask k cells).*1
      ∧ annotated coll'
        = annotated coll
          ++ (if annot then (emitted_cells size color mask k cells).*1 else []).
Proof.
  revert k coll. induction cells as [|[[cx cy] circ] cells IH]; intros k coll H.
  - cbn in H. simplify_eq. split; [cbn; lia|]. exists [].
    unfold emitted_cells. cbn. rewrite !app_nil_r. split_and!; try done.
    destruct annot; by rewrite app_nil_r.
  - cbn [res_foldM] in H.
    destruct (zaric_cell _ _ _ _ _ _ _ _) as [[k1 coll1]|] eqn:E; [|done].
    cbn in H. apply IH in H as (-> & new & Hp & Hf & Hi & Ha).
    unfold zaric_cell in E.
    destruct (cell_skipped size color mask k) as [b|] eqn:Es; [|done].
    apply cell_skipped_Ok in Es. cbn in E.
    unfold emitted_cells. cbn [length seq zip_with]. rewrite filter_cons. cbn [fst].
    destruct b.
    + simplify_eq. rewrite <-Es. case_decide; [done|].
      replace (k + 1) with (S k) in * by lia.
      split; [cbn; lia|]. by exists new.
    + destruct (getidx size k) as [sz|] eqn:Esz; [|done]. cbn in E.
      apply getidx_Ok in Esz.
      destruct (make_patch cx cy circ sz) as [rect|] eqn:Em; [|done]. cbn in E.
      simplify_eq. rewrite <-Es. case_decide; [|done].
      replace (k + 1) with (S k) in * by lia.
      split; [cbn; lia|]. exists (rect :: new). cbn in *.
      split_and!.
      * by rewrite Hp, <-(assoc_L (++)).
      * constructor; [by exists sz|done].
      * by rewrite Hi, <-(assoc_L (++)).
      * rewrite Ha. destruct annot; by rewrite <-?(assoc_L (++)).
Qed.

Lemma emitted_cells_fst size color mask k cells :
  (emitted_cells size color mask k cells).*1
  = filter (λ i, cell_suppressed size color mask i = false)
           (seq k (length cells)).
Proof.
  unfold emitted_cells. revert k.
  induction cells as [|c cs IH]; intros k; [done|].
  cbn [length seq zip_with]. rewrite !filter_cons. cbn [fst].
  case_decide; rewrite ?fmap_cons; cbn [fst]; by rewrite IH.
Qed.

Lemma cell_skipped_returns size color mask i :
  i < length size → i < length color →
  (∀ m, mask = Some m → i < length m) →
  is_Ok (cell_skipped size color mask i).
Proof.
  intros Hs Hc Hm. unfold cell_skipped, getidx.
  destruct (lookup_lt_is_Some_2 size i Hs) as [s ->].
  destruct (lookup_lt_is_Some_2 color i Hc) as [c ->]. cbn.
  destruct (float_is_zero s); [by eexists|].
  destruct (is_nan c); [by eexists|].
  destruct mask as [m|]; [|by eexists].
  destruct (lookup_lt_is_Some_2 m i (Hm m eq_refl)) as [b ->]. by eexists.
Qed.

Lemma zaric_cell_unfold size color mask annot k coll cx cy circ :
  zaric_cell shape make_patch size color mask annot (k, coll) (cx, cy, circ)
  = (skip ← cell_skipped size color mask k;
     if (skip : bool) then Ok (k + 1, coll)
     else
       s ← getidx size k;
       cur_rect ← make_patch cx cy circ s;
       Ok (k + 1,
           MkCollection (patch_col coll ++ [cur_rect])
             (patch_col_ind coll ++ [k])
             (if annot then annotated coll ++ [k] else annotated coll))).
Proof. reflexivity. Qed.

Lemma zaric_loop_returns size color mask annot cells k coll :
  k + length cells ≤ length size → k + length cells ≤ length color →
  (∀ m, mask = Some m → k + length cells ≤ length m) →
  (∀ cx cy circ sz, is_Ok (make_patch cx cy circ sz)) →
  is_Ok (res_foldM (zaric_cell shape make_patch size color mask annot)
           (k, coll) cells).
Proof.
  intros Hs Hc Hm Hp. revert k coll Hs Hc Hm.
  induction cells as [|[[cx cy] circ] cells IH]; intros k coll Hs Hc Hm.
  - by eexists.
  - cbn [length] in Hs, Hc, Hm. cbn [res_foldM].
    rewrite zaric_cell_unfold.
    destruct (cell_skipped_returns size color mask k) as [b ->];
      [lia|lia|intros m Hmm; specialize (Hm m Hmm); lia|].
    cbn [mbind res_bind]. destruct b.
    + cbn [mbind res_bind]. apply IH; [lia|lia|intros m Hmm; specialize (Hm m Hmm); lia].
    + unfold getidx.
      destruct (lookup_lt_is_Some_2 size k ltac:(lia)) as [sz ->].
      cbn [mbind res_bind].
      destruct (Hp cx cy circ sz) as [rect ->]. cbn [mbind res_bind].
      apply IH; [lia|lia|intros m Hmm; specialize (Hm m Hmm); lia].
Qed.

(** When the arrays cover the cells and the geometry of every cell can be
    computed, [_zaric_heatmap] returns a collection. *)
Lemma zaric_heatmap_returns y x color size circular mask annot :
  let cells := zip (zip x y) (default (replicate (length x) false) circular) in
  length cells ≤ length (default (replicate (length x) (Fin 1)) size) →
  length cells ≤ length color →
  (∀ m, mask = Some m → length cells ≤ length m) →
  (∀ cx cy circ sz, is_Ok (make_patch cx cy circ sz)) →
  is_Ok (_zaric_heatmap shape make_patch y x color size circular mask annot).
Proof.
  cbn zeta. intros Hs Hc Hm Hp. unfold _zaric_heatmap.
  destruct (zaric_loop_returns
              (default (replicate (length x) (Fin 1)) size) color mask annot
              (zip (zip x y) (default (replicate (length x) false) circular))
              0 (MkCollection [] [] [])) as [[k coll] ->]; try done.
  by eexists.
Qed.
(** C7.  When [_zaric_heatmap] returns, its shape collection holds exactly
    one shape for every cell that is neither of size zero, nor
    NaN-coloured, nor masked, in cell order, and none for the others; each
    of the three conditions alone keeps a cell out of the collection.  It
    does return when the arrays cover the cells and the geometry of every
    cell can be computed. *)
Theorem zaric_shapes_filtered y x color size circular mask annot :
  let size' := default (replicate (length x) (Fin 1)) size in
  let cells := zip (zip x y) (default (replicate (length x) false) circular) in
  let suppressed i := cell_suppressed size' color mask i in
  (∀ coll,
     _zaric_heatmap shape make_patch y x color size circular mask annot
     = Ok coll →
     patch_col_ind coll
       = filter (λ i, suppressed i = false) (seq 0 (length cells))
     ∧ length (patch_col coll) = length (patch_col_ind coll)
     ∧ Forall2 (patch_of shape make_patch size')
               (emitted_cells size' color mask 0 cells) (patch_col coll)
     ∧ (∀ i, i < length cells →
          (size_is_zero size' i = true → i ∉ patch_col_ind coll)
          ∧ (color_is_nan color i = true → i ∉ patch_col_ind coll)
          ∧ (is_masked mask i = true → i ∉ patch_col_ind coll)
          ∧ (suppressed i = false → i ∈ patch_col_ind coll)))
  ∧ (length cells ≤ length size' → length cells ≤ length color →
     (∀ m, mask = Some m → length cells ≤ length m) →
     (∀ cx cy circ sz, is_Ok (make_patch cx cy circ sz)) →
     is_Ok (_zaric_heatmap shape make_patch y x color size circular mask annot)).
Proof.
  cbn zeta. split; [|by apply zaric_heatmap_returns].
  unfold _zaric_heatmap. intros coll H.
  set (size' := default (replicate (length x) (Fin 1)) size) in *.
  set (cells := zip (zip x y) (default (replicate (length x) false) circular)) in *.
  destruct (res_foldM _ _ _) as [[k' coll']|] eqn:E; [|done].
  injection H as <-. cbn [snd].
  apply zaric_loop_spec in E as (_ & new & Hp & Hf & Hi & _).
  cbn in Hp, Hi. subst new.
  assert (Hind : patch_col_ind coll'
                 = filter (λ i, cell_suppressed size' color mask i = false)
                          (seq 0 (length cells))).
  { rewrite Hi. apply emitted_cells_fst. }
  split_and!; [done| |done|].
  - apply Forall2_length in Hf. by rewrite Hi, length_fmap.
  - intros i Hlt. rewrite Hind.
    assert (i ∈ seq 0 (length cells)) by (apply elem_of_seq; lia).
    unfold cell_suppressed.
    split_and!; rewrite list_elem_of_filter; intros Hc; try (intros [Hs _]);
      [rewrite Hc in Hs; done| |  |done].
    + rewrite Hc, orb_true_r in Hs. done.
    + rewrite Hc, orb_true_r in Hs. done.
Qed.
End zaric_facts.

(** ** The render mask of [corr_heatmap] *)

Lemma mask_set_get2 mask a b mask' i j :
  mask_set mask (a, b) = Ok mask' →
  get2 mask' i j
  = (λ v : bool, v || bool_decide ((i, j) = (a, b))) <$> get2 mask i j.
Proof.
  unfold mask_set, get2. cbn [fst snd].
  destruct (mask !! a) as [row|] eqn:Ea; [|done].
  case_decide as Hb; [|done]. intros [= <-].
  destruct (decide (i = a)) as [->|Hi].
  - rewrite list_lookup_insert_eq by by eapply lookup_lt_Some.
    rewrite Ea. cbn.
    destruct (decide (j = b)) as [->|Hj].
    + rewrite list_lookup_insert_eq by done.
      destruct (lookup_lt_is_Some_2 row b Hb) as [v ->]. cbn.
      by rewrite bool_decide_eq_true_2, orb_true_r.
    + rewrite list_lookup_insert_ne by done.
      destruct (row !! j); cbn; [|done].
      rewrite bool_decide_eq_false_2, orb_false_r; [done|congruence].
  - rewrite list_lookup_insert_ne by done.
    destruct (mask !! i) as [row'|]; cbn; [|done].
    destruct (row' !! j); cbn; [|done].
    rewrite bool_decide_eq_false_2, orb_false_r; [done|congruence].
Qed.

Lemma mask_set_loop l mask mask' i j :
  res_foldM mask_set mask l = Ok mask' →
  get2 mask' i j = (λ v : bool, v || bool_decide ((i, j) ∈ l)) <$> get2 mask i j.
Proof.
  revert mask. induction l as [|[a b] l IH]; intros mask H.
  - cbn in H. simplify_eq. destruct (get2 mask' i j); cbn; [|done].
    rewrite bool_decide_eq_false_2, orb_false_r; [done|]. apply not_elem_of_nil.
  - cbn [res_foldM] in H. destruct (mask_set mask (a, b)) as [m1|] eqn:E; [|done].
    cbn in H. rewrite (IH _ H), (mask_set_get2 _ _ _ _ _ _ E).
    destruct (get2 mask i j) as [v|]; cbn; [|done]. f_equal.
    rewrite <-orb_assoc, <-bool_decide_or. f_equal.
    apply bool_decide_ext. by rewrite elem_of_cons.
Qed.

Lemma elem_of_where_ge p p_bound i j :
  (i, j) ∈ where_ge p p_bound ↔ p_ge p p_bound (i, j) = true.
Proof.
  unfold where_ge. rewrite list_elem_of_filter. split; [tauto|].
  intros H. split; [done|].
  apply list_elem_of_In, in_prod; apply list_elem_of_In, elem_of_seq;
    unfold p_ge, frame_at in H; cbn in H.
  - destruct (labels p !! i) eqn:E; [|done].
    apply lookup_lt_Some in E. lia.
  - destruct (labels p !! i); [|done]. cbn in H.
    destruct (labels p !! j) eqn:E; [|done].
    apply lookup_lt_Some in E. lia.
Qed.

Lemma mask_corr_significance_get2 mask p p_bound mask' i j :
  _mask_corr_significance mask p p_bound = Ok mask' →
  get2 mask' i j = (λ v : bool, v || p_ge p p_bound (i, j)) <$> get2 mask i j.
Proof.
  intros H%(mask_set_loop _ _ _ i j). rewrite H.
  destruct (get2 mask i j); cbn; [|done]. do 2 f_equal.
  destruct (p_ge p p_bound (i, j)) eqn:E.
  - apply bool_decide_eq_true_2. by apply elem_of_where_ge.
  - apply bool_decide_eq_false_2. rewrite elem_of_where_ge. congruence.
Qed.

Lemma mask_diagonal_get2 mask i j :
  get2 (_mask_diagonal mask) i j
  = (λ v : bool, v || bool_decide (i = j)) <$> get2 mask i j.
Proof.
  unfold _mask_diagonal, get2. rewrite list_lookup_imap.
  destruct (mask !! i) as [row|]; cbn; [|done].
  destruct (decide (i = j)) as [->|Hne].
  - destruct (row !! j) as [v|] eqn:E; cbn.
    + rewrite list_lookup_insert_eq by by eapply lookup_lt_Some.
      by rewrite bool_decide_eq_true_2, orb_true_r.
    + rewrite list_insert_ge; [by rewrite E|by apply lookup_ge_None].
  - rewrite list_lookup_insert_ne by done.
    destruct (row !! j); cbn; [|done].
    by rewrite bool_decide_eq_false_2, orb_false_r.
Qed.

Lemma corr_heatmap_mask_get2 r p mask p_bound mask_diagonal mask' i j :
  corr_heatmap_mask r p mask p_bound mask_diagonal = Ok mask' →
  get2 mask' i j
  = (λ v : bool, v || marked p p_bound mask_diagonal i j)
    <$> get2 (initial_mask r mask) i j.
Proof.
  unfold corr_heatmap_mask, marked. fold (initial_mask r mask).
  destruct p_bound as [b|]; cbn.
  - destruct (_mask_corr_significance _ _ _) as [m1|] eqn:E; [|done]. cbn.
    intros [= <-]. apply (mask_corr_significance_get2 _ _ _ _ i j) in E.
    destruct mask_diagonal; [rewrite mask_diagonal_get2|]; rewrite E;
      destruct (get2 (initial_mask r mask) i j); cbn; try done.
    + by rewrite orb_assoc.
    + by rewrite orb_false_r.
  - intros [= <-].
    destruct mask_diagonal; [rewrite mask_diagonal_get2|];
      destruct (get2 (initial_mask r mask) i j); cbn; try done.
    by rewrite orb_false_r.
Qed.

Lemma initial_mask_default r i j :
  i < length (labels r) → j < length (labels r) →
  get2 (initial_mask r None) i j = Some false.
Proof.
  intros Hi Hj. unfold initial_mask, get2. cbn.
  rewrite lookup_replicate_2 by done. cbn. by rewrite lookup_replicate_2.
Qed.

Lemma raises_bind {A B} (m : res A) (f : A → res B) :
  raises m → raises (m ≫= f).
Proof. intros [e ->]. by exists e. Qed.

Lemma raises_not_Ok {A} (m : res A) a : raises m → m ≠ Ok a.
Proof. intros [e ->]. done. Qed.

Section heatmap_facts.
Variable shape : Type.
Variable make_patch : string → string → bool → pyfloat → res shape.
Variable reordered_ind : Matrix → nat → string → string → res (list nat).

#[local] Abbreviation heatmap' := (heatmap shape make_patch reordered_ind).

Lemma heatmap_draw_unknown st map_type annot :
  ¬ known_map_type map_type →
  heatmap_draw shape make_patch st map_type annot = Raise ValueError.
Proof.
  unfold known_map_type, heatmap_draw. intros H.
  destruct st as [[df mask] ct]. repeat case_decide; tauto.
Qed.

Lemma heatmap_unknown_raises df ct map_type ax annot mask rc rm rmeth cc cm cmeth :
  ¬ known_map_type map_type →
  raises (heatmap' df ct map_type ax annot mask rc rm rmeth cc cm cmeth).
Proof.
  intros H. unfold heatmap.
  destruct (_ && _); [by exists ValueError|].
  destruct (if rc && _ then _ else _) as [st|e]; [|by exists e]. cbn.
  destruct (if cc && _ then _ else _) as [st'|e]; [|by exists e]. cbn.
  rewrite heatmap_draw_unknown by done. by exists ValueError.
Qed.

Lemma heatmap_unknown_ValueError df ct map_type ax annot mask rm rmeth cm cmeth :
  ¬ known_map_type map_type →
  heatmap' df ct map_type ax annot mask false rm rmeth false cm cmeth
  = Raise ValueError.
Proof.
  intros H. unfold heatmap.
  destruct (_ && _); [done|]. cbn [andb mbind res_bind].
  by apply heatmap_draw_unknown.
Qed.
End heatmap_facts.

(** ** [ColGrid] *)

Lemma ColGrid_init_comb_conflict data x_cols y_cols col_wrap :
  ColGrid_init data x_cols (Some y_cols) "comb" col_wrap = Raise ValueError.
Proof. done. Qed.

Lemma ColGrid_init_Ok data xs ys i w :
  ¬ (i = "comb" ∧ ys ≠ None) →
  ∃ g, ColGrid_init data xs ys i w = Ok g ∧ interact g = i ∧ g_data g = data
       ∧ x_cols g = match xs with OneCol s => [s] | ManyCols l => l end.
Proof.
  intros H. unfold ColGrid_init.
  destruct (bool_decide (i = "comb") && bool_decide (ys ≠ None)) eqn:E.
  - apply andb_true_iff in E as [?%bool_decide_eq_true ?%bool_decide_eq_true].
    tauto.
  - eexists. split; [done|]. done.
Qed.

Lemma grid_pairs_unknown g :
  ¬ known_interact (interact g) → grid_pairs g = Raise ValueError.
Proof.
  unfold known_interact, grid_pairs. intros H. repeat case_decide; tauto.
Qed.

Lemma ColGrid_map_unknown {plot} g
    (func : string → option string → option DataFrame → res plot) data :
  ¬ known_interact (interact g) → ColGrid_map plot g func data = Raise ValueError.
Proof. intros H. unfold ColGrid_map. by rewrite grid_pairs_unknown. Qed.

(** ** [crosstab_plot] *)

Lemma bind_call_normalize :
  bind_call numpy_crosstab_params 2 ["dropna"; "shownan"; "normalize"]
  = Raise TypeError.
Proof. by vm_compute. Qed.

Section plots_facts.
Variable float_repr : Q → string.
Variable shape : Type.
Variable make_patch : string → string → bool → pyfloat → res shape.
Variable reordered_ind : Matrix → nat → string → string → res (list nat).
Variable plot : Type.
Variable barplot_of_means : DataFrame → plot.

#[local] Abbreviation crosstab_plot' :=
  (crosstab_plot float_repr shape make_patch reordered_ind).
#[local] Abbreviation proportion_plot' :=
  (proportion_plot float_repr plot barplot_of_means).

Lemma crosstab_plot_cases xy dropna shownan normalize :
  crosstab_plot' xy dropna shownan normalize
  = match resolve_xy xy with
    | Ok _ => Raise TypeError
    | Raise e => Raise e
    end.
Proof.
  unfold crosstab_plot. destruct (resolve_xy xy) as [[x y]|e]; [|done].
  cbn. by rewrite bind_call_normalize.
Qed.
End plots_facts.

Lemma insert_sorted_not_nil s l : insert_sorted s l ≠ [].
Proof. destruct l as [|t l]; cbn; [done|]. by destruct (String.compare s t). Qed.

Lemma np_unique_not_nil l : l ≠ [] → np_unique l ≠ [].
Proof. destruct l; [done|]. intros _. apply insert_sorted_not_nil. Qed.

Lemma ceil_div_pos a b : 0 < a → 0 < b → 0 < ceil_div a b.
Proof. intros. unfold ceil_div. apply Nat.div_str_pos. lia. Qed.

Section proportion_facts.
Variable float_repr : Q → string.
Variable plot : Type.
Variable barplot_of_means : DataFrame → plot.

#[local] Abbreviation proportion_plot' :=
  (proportion_plot float_repr plot barplot_of_means).
#[local] Abbreviation propplot' :=
  (groupby_propplot_func plot barplot_of_means).
#[local] Abbreviation dummies := (get_dummies_renamed float_repr).

Lemma get_dummies_not_nil prop_col s v :
  v ∈ s → pd_isnull v = false → dummies prop_col s ≠ [].
Proof.
  intros Hv Hn. unfold get_dummies_renamed.
  set (levels := np_unique _).
  assert (levels ≠ []) as Hl.
  { apply np_unique_not_nil. intros Hnil%fmap_nil_inv.
    assert (v ∈ filter (λ v, pd_isnull v = false) s) as Hin
      by by apply list_elem_of_filter.
    rewrite Hnil in Hin. by apply elem_of_nil in Hin. }
  destruct levels; [done|]. done.
Qed.

Lemma proportion_grid_Ok df x_col prop_col g :
  proportion_grid float_repr df x_col prop_col = Ok g →
  ∃ pc xc,
    assoc df prop_col = Some pc ∧ assoc df x_col = Some xc
    ∧ g_data g = (x_col, xc) :: dummies prop_col pc
    ∧ x_cols g = ["Sex"]
    ∧ y_cols g = Some <$> columns (dummies prop_col pc)
    ∧ interact g = "product"
    ∧ col_wrap g = 4 `min` length (dummies prop_col pc).
Proof.
  unfold proportion_grid, getitem.
  destruct (assoc df prop_col) as [pc|]; [|done]. cbn.
  destruct (assoc df x_col) as [xc|]; [|done]. cbn.
  intros [= <-]. exists pc, xc. cbn. unfold columns.
  rewrite !length_fmap, Nat.add_0_r. done.
Qed.

(** Mapped without [data], the plotting helper receives two names. *)
Lemma groupby_propplot_names x y :
  propplot' x (Some y) None = Raise TypeError.
Proof. done. Qed.

Lemma ColGrid_map_names_TypeError g y ys :
  interact g = "product" → x_cols g = ["Sex"] → y_cols g = Some y :: ys →
  col_wrap g = 4 `min` length (y_cols g) →
  ColGrid_map plot g propplot' None = Raise TypeError.
Proof.
  intros Hi Hx Hy Hw. unfold ColGrid_map, grid_pairs.
  rewrite Hi, Hx, Hw, Hy. cbn [decide_rel mbind res_bind].
  destruct (decide ("product" = "product")); [|done].
  cbn [mbind res_bind length list_prod map app].
  rewrite Nat.mul_1_l. set (k := S (length ys)).
  assert (0 < 4 `min` k) as Hpos by (unfold k; lia).
  pose proof (ceil_div_pos k (4 `min` k) ltac:(unfold k; lia) Hpos) as Hc.
  case_decide as Hz; [lia|]. case_decide as Hr; [lia|].
  destruct (ceil_div k (4 `min` k) * 4 `min` k) as [|n] eqn:En; [lia|].
  done.
Qed.

Lemma proportion_plot_TypeError df x_col prop_col rest pc xc v :
  assoc df prop_col = Some pc → assoc df x_col = Some xc →
  v ∈ pc → pd_isnull v = false →
  proportion_plot' df x_col (ManyCols (prop_col :: rest)) = Raise TypeError
  ∧ (rest = [] → proportion_plot' df x_col (OneCol prop_col) = Raise TypeError).
Proof.
  intros Hp Hx Hv Hn.
  assert (∀ rest, proportion_plot' df x_col (ManyCols (prop_col :: rest))
                  = Raise TypeError) as H.
  { clear rest. intros rest. unfold proportion_plot. cbn [res_mapM].
    destruct (proportion_grid float_repr df x_col prop_col) as [g|] eqn:E.
    2:{ unfold proportion_grid, getitem in E. rewrite Hp, Hx in E. done. }
    apply proportion_grid_Ok in E
      as (pc' & xc' & Hp' & Hx' & Hd & Hxc & Hyc & Hi & Hw).
    rewrite Hp in Hp'. injection Hp' as <-.
    pose proof (get_dummies_not_nil prop_col pc v Hv Hn) as Hne.
    destruct (dummies prop_col pc) as [|[n s] ds] eqn:Ed; [done|].
    cbn [mbind res_bind].
    rewrite (ColGrid_map_names_TypeError g n (Some <$> columns ds)); try done.
    rewrite Hw, Hyc. unfold columns. cbn. by rewrite !length_fmap. }
  split; [apply H|]. intros _. apply (H []).
Qed.

Lemma proportion_plot_no_cols df x_col :
  proportion_plot' df x_col (ManyCols []) = Ok [].
Proof. done. Qed.
End proportion_facts.

Section corr_claims.
Variable split_col_by_type : DataFrame → list string * list string.
Variable pearsonr : Series → Series → res (pyfloat * pyfloat).
Variable correlation_ratio : Series → Series → res pyfloat.
Variable theils_u : Series → Series → res pyfloat.
Variable theils_sym_u : Series → Series → res pyfloat.

#[local] Abbreviation corr' :=
  (corr split_col_by_type pearsonr correlation_ratio theils_u theils_sym_u).
#[local] Abbreviation pair_stat' :=
  (pair_stat correlation_ratio theils_u theils_sym_u).
#[local] Abbreviation nums := (numeric_set split_col_by_type).
#[local] Abbreviation cols := (selected_columns split_col_by_type).

(** C1.  With [nan_strategy = "mask"], for every table (with distinct
    column names) and every pair of selected columns, the statistic stored
    by [corr] for the pair is computed on exactly the rows that are valid
    in both columns: a row is invalid for a numeric column when its value
    is NaN or an infinity, for a categorical one when it is a
    missing-value marker.  In particular, for [A = [1, 2, 3, NaN]]
    (numeric) and [B = ["x", "y", "x", "y"]] (categorical) the correlation
    ratio is taken on the three rows where [A] is finite, paired with
    their values of [B], and the pair is tagged [num_vs_cat]. *)
Theorem corr_mask_uses_valid_rows :
  (∀ df cat num cm rv rct sym r p oct col1 col2,
     NoDup (columns df) →
     corr' df cat num cm "mask" rv rct sym = Ok (r, p, oct) →
     (col1, col2) ∈ combinations2 (labels r) →
     ∃ s1 s2 r12 r21 pv,
       assoc df col1 = Some s1 ∧ assoc df col2 = Some s2
       ∧ pair_stat' (default pearsonr cm) sym
           (numeric_flag split_col_by_type df cat num col1) (numeric_flag split_col_by_type df cat num col2)
           (valid_rows (numeric_flag split_col_by_type df cat num col1)
                       (numeric_flag split_col_by_type df cat num col2) s1 s2).*1
           (valid_rows (numeric_flag split_col_by_type df cat num col1)
                       (numeric_flag split_col_by_type df cat num col2) s1 s2).*2
         = Ok (r12, r21, pv)
       ∧ loc r col1 col2 = Some r12 ∧ loc r col2 col1 = Some r21
       ∧ loc p col1 col2 = Some pv ∧ loc p col2 col1 = Some pv)
  ∧ (∀ rv rct sym r p oct,
       corr' dfAB (ArgList ["B"]) (ArgList ["A"]) None "mask" rv rct sym
       = Ok (r, p, oct) →
       ∃ eta,
         correlation_ratio
           [VStr "x"; VStr "y"; VStr "x"]
           [VFloat (Fin 1); VFloat (Fin 2); VFloat (Fin 3)] = Ok eta
         ∧ loc r "A" "B" = Some eta ∧ loc r "B" "A" = Some eta
         ∧ ∀ ct, oct = Some ct → loc ct "A" "B" = Some (CtTag num_vs_cat)).
Proof.
  assert (∀ df cat num cm rv rct sym r p oct col1 col2,
     NoDup (columns df) →
     corr' df cat num cm "mask" rv rct sym = Ok (r, p, oct) →
     (col1, col2) ∈ combinations2 (labels r) →
     ∃ s1 s2 r12 r21 pv,
       assoc df col1 = Some s1 ∧ assoc df col2 = Some s2
       ∧ pair_stat' (default pearsonr cm) sym
           (numeric_flag split_col_by_type df cat num col1) (numeric_flag split_col_by_type df cat num col2)
           (valid_rows (numeric_flag split_col_by_type df cat num col1)
                       (numeric_flag split_col_by_type df cat num col2) s1 s2).*1
           (valid_rows (numeric_flag split_col_by_type df cat num col1)
                       (numeric_flag split_col_by_type df cat num col2) s1 s2).*2
         = Ok (r12, r21, pv)
       ∧ (loc r col1 col2 = Some r12 ∧ loc r col2 col1 = Some r21
       ∧ loc p col1 col2 = Some pv ∧ loc p col2 col1 = Some pv)
       ∧ ∀ ct, oct = Some ct →
           loc ct col1 col2
           = Some (CtTag (pair_kind (numeric_flag split_col_by_type df cat num col1)
                                    (numeric_flag split_col_by_type df cat num col2)))) as Hgen.
  { intros df cat num cm rv rct sym r p oct col1 col2 Hnd Hrun Hin.
    destruct (corr_labels _ _ _ _ _ _ _ _ _ _ _ _ _ _ _ _ Hrun) as (Hl & _).
    rewrite Hl in Hin.
    destruct (corr_pair_cells _ _ _ _ _ _ _ _ _ _ _ _ _ _ _ _ _ _ Hnd Hrun Hin)
      as (r12 & r21 & pv & (x & y & Hmf & Hst) & ? & ? & ? & ? & Hct).
    apply make_finite_mask in Hmf as (s1 & s2 & ? & ? & -> & ->).
    exists s1, s2, r12, r21, pv. split_and!; try done.
    intros ct Hoct. by destruct (Hct ct Hoct). }
  split.
  - intros df cat num cm rv rct sym r p oct col1 col2 Hnd Hrun Hin.
    destruct (Hgen _ _ _ _ _ _ _ _ _ _ _ _ Hnd Hrun Hin)
      as (s1 & s2 & r12 & r21 & pv & ? & ? & ? & (? & ? & ? & ?) & _).
    by exists s1, s2, r12, r21, pv.
  - intros rv rct sym r p oct Hrun.
    assert (NoDup (columns dfAB)) as Hnd by (apply (bool_decide_unpack _); by vm_compute).
    assert ((("A" : string), ("B" : string)) ∈ combinations2 (labels r)) as Hin.
    { destruct (corr_labels _ _ _ _ _ _ _ _ _ _ _ _ _ _ _ _ Hrun) as (-> & _).
      apply (bool_decide_unpack _). by vm_compute. }
    destruct (Hgen _ _ _ _ _ _ _ _ _ _ _ _ Hnd Hrun Hin)
      as (s1 & s2 & r12 & r21 & pv & Hs1 & Hs2 & Hst & (? & ? & ? & ?) & Hct).
    cbn in Hs1, Hs2. injection Hs1 as <-. injection Hs2 as <-.
    replace (numeric_flag split_col_by_type dfAB (ArgList ["B"]) (ArgList ["A"]) "A") with true
      in * by by vm_compute.
    replace (numeric_flag split_col_by_type dfAB (ArgList ["B"]) (ArgList ["A"]) "B") with false
      in * by by vm_compute.
    unfold pair_stat in Hst.
    replace (valid_rows true false _ _) with
      [(VFloat (Fin 1), VStr "x"); (VFloat (Fin 2), VStr "y");
       (VFloat (Fin 3), VStr "x")] in Hst by by vm_compute.
    cbn [fmap list_fmap fst snd] in Hst.
    destruct (correlation_ratio _ _) as [eta|]; [|done].
    cbn in Hst. simplify_eq. eexists. split_and!; eauto.
Qed.

(** C2.  Whatever the strategy, the association frame returned by [corr]
    holds 1 and the p-value frame holds 0 at [[c, c]] for every selected
    column [c] (the pair-kind frame keeps its initial 0 there), and no
    pair visited by the loop has twice the same column, so that no
    iteration writes a diagonal cell.  Column names are distinct. *)
Theorem corr_diagonal df cat num cm strat rv rct sym r p oct :
  NoDup (columns df) →
  corr' df cat num cm strat rv rct sym = Ok (r, p, oct) →
  (∀ c, c ∈ labels r →
     loc r c c = Some (Fin 1) ∧ loc p c c = Some (Fin 0)
     ∧ ∀ ct, oct = Some ct → loc ct c c = Some CtZero)
  ∧ (∀ col1 col2, (col1, col2) ∈ combinations2 (labels r) → col1 ≠ col2).
Proof.
  intros Hnd Hrun.
  destruct (corr_labels _ _ _ _ _ _ _ _ _ _ _ _ _ _ _ _ Hrun) as (-> & _).
  split.
  - intros c Hc. by eapply corr_diag_cells.
  - intros col1 col2 Hin.
    by destruct (combinations2_irrefl _ _ _
                   (selected_columns_NoDup _ _ cat num Hnd) Hin).
Qed.

Lemma pair_stat_sym cm sym n1 n2 x y r12 r21 pv :
  pair_stat' cm sym n1 n2 x y = Ok (r12, r21, pv) →
  n1 || n2 || sym = true → r12 = r21.
Proof.
  unfold pair_stat. intros H Hf.
  destruct n1, n2; [| | |destruct sym; [|done]].
  - destruct (cm x y) as [[]|]; cbn in H; by simplify_eq.
  - destruct (correlation_ratio y x); cbn in H; by simplify_eq.
  - destruct (correlation_ratio x y); cbn in H; by simplify_eq.
  - destruct (theils_sym_u x y); cbn in H; by simplify_eq.
Qed.

Lemma pair_stat_asym cm x y r12 r21 pv :
  pair_stat' cm false false false x y = Ok (r12, r21, pv) →
  theils_u x y = Ok r12 ∧ theils_u y x = Ok r21.
Proof.
  unfold pair_stat. intros H.
  destruct (theils_u x y); cbn in H; [|done].
  destruct (theils_u y x); cbn in H; by simplify_eq.
Qed.

(** Off the diagonal, either one value is mirrored into both cells, or
    (two categorical columns, asymmetric mode) the two cells hold the
    coefficient in the two directions. *)
Lemma corr_cells_symmetry df cat num cm strat rv rct sym r p oct i j :
  NoDup (columns df) →
  corr' df cat num cm strat rv rct sym = Ok (r, p, oct) →
  i ∈ labels r → j ∈ labels r → i ≠ j →
  (numeric_flag split_col_by_type df cat num i || numeric_flag split_col_by_type df cat num j || sym = true →
     ∃ v, loc r i j = Some v ∧ loc r j i = Some v)
  ∧ (numeric_flag split_col_by_type df cat num i || numeric_flag split_col_by_type df cat num j || sym = false →
     ∃ x y uij uji,
       _make_finite df i j false false strat rv = Ok (x, y)
       ∧ theils_u x y = Ok uij ∧ theils_u y x = Ok uji
       ∧ loc r i j = Some uij ∧ loc r j i = Some uji).
Proof.
  intros Hnd Hrun Hi Hj Hne. unfold numeric_flag.
  destruct (corr_labels _ _ _ _ _ _ _ _ _ _ _ _ _ _ _ _ Hrun) as (Hl & _).
  rewrite Hl in Hi, Hj.
  destruct (combinations2_total _ _ _ Hi Hj Hne) as [Hin|Hin];
    destruct (corr_pair_cells _ _ _ _ _ _ _ _ _ _ _ _ _ _ _ _ _ _ Hnd Hrun Hin)
      as (r12 & r21 & pv & (x & y & Hmf & Hst) & Hr12 & Hr21 & _).
  - split; intros Hf.
    + apply pair_stat_sym in Hst as ->; [|done]. by exists r21.
    + apply orb_false_iff in Hf as [[E1 E2]%orb_false_iff ->].
      rewrite E1, E2 in Hst, Hmf. apply pair_stat_asym in Hst as [? ?].
      by exists x, y, r12, r21.
  - split; intros Hf.
    + apply pair_stat_sym in Hst as ->; [by exists r21|].
      by rewrite (orb_comm (bool_decide (j ∈ _))).
    + apply orb_false_iff in Hf as [[E1 E2]%orb_false_iff ->].
      rewrite E1, E2 in Hst, Hmf. apply pair_stat_asym in Hst as [? ?].
      apply make_finite_swap in Hmf. by exists y, x, r21, r12.
Qed.

(** C4, as amended.  For two selected columns [i], [j] with [i] before
    [j] in column order, the tag stored at both [[i, j]] and [[j, i]] is
    the one given by the flags of [i] and [j] in that order: [num_vs_num],
    [num_vs_cat], [cat_vs_num] or [cat_vs_cat].  It depends on no other
    column; the diagonal keeps the initial 0. *)
Theorem corr_kind_by_position df cat num cm strat rv rct sym r p oct ct :
  NoDup (columns df) →
  corr' df cat num cm strat rv rct sym = Ok (r, p, oct) → oct = Some ct →
  (∀ a b i j, a < b → labels ct !! a = Some i → labels ct !! b = Some j →
     loc ct i j = Some (CtTag (pair_kind (numeric_flag split_col_by_type df cat num i)
                                         (numeric_flag split_col_by_type df cat num j)))
     ∧ loc ct j i = Some (CtTag (pair_kind (numeric_flag split_col_by_type df cat num i)
                                           (numeric_flag split_col_by_type df cat num j))))
  ∧ (∀ c, c ∈ labels ct → loc ct c c = Some CtZero).
Proof.
  intros Hnd Hrun Hoct.
  destruct (corr_labels _ _ _ _ _ _ _ _ _ _ _ _ _ _ _ _ Hrun) as (_ & _ & Hl).
  rewrite (Hl ct Hoct). split.
  - intros a b i j Hab Ha Hb.
    assert ((i, j) ∈ combinations2 (cols df cat num)) as Hin
      by (apply combinations2_lookup; eauto).
    destruct (corr_pair_cells _ _ _ _ _ _ _ _ _ _ _ _ _ _ _ _ _ _ Hnd Hrun Hin)
      as (r12 & r21 & pv & _ & _ & _ & _ & _ & Hct).
    by apply Hct.
  - intros c Hc.
    destruct (corr_diag_cells _ _ _ _ _ _ _ _ _ _ _ _ _ _ _ _ _ Hnd Hrun Hc)
      as (_ & _ & Hct).
    by apply Hct.
Qed.

(** An unknown strategy is only noticed by [_make_finite], that is when
    the loop reaches its first pair of columns. *)
Lemma corr_unknown_strategy df cat num cm strat rv rct sym col1 col2 rest :
  ¬ known_strategy strat →
  cols df cat num = col1 :: col2 :: rest →
  raises (corr' df cat num cm strat rv rct sym)
  ∧ (∀ s1 s2,
       assoc df col1 = Some s1 → assoc df col2 = Some s2 →
       (numeric_flag split_col_by_type df cat num col1 = true → numeric_dtype s1 = true) →
       (numeric_flag split_col_by_type df cat num col2 = true → numeric_dtype s2 = true) →
       corr' df cat num cm strat rv rct sym = Raise ValueError).
Proof.
  unfold known_strategy. intros Hk Hc. split.
  - destruct (make_finite_unknown_raises df col1 col2
                (numeric_flag split_col_by_type df cat num col1) (numeric_flag split_col_by_type df cat num col2)
                strat rv) as [e He]; [tauto..|].
    exists e. by eapply corr_first_pair.
  - intros s1 s2 H1 H2 D1 D2. eapply corr_first_pair; [done|].
    eapply make_finite_unknown_ValueError; eauto.
Qed.

End corr_claims.

Lemma NoDup_dfAB : NoDup (columns dfAB).
Proof. by_computation. Qed.
Lemma NoDup_dfXY : NoDup (columns dfXY).
Proof. by_computation. Qed.

Lemma corr_mask_uses_valid_rows_witness :
  ∃ r p oct,
    corr_demo dfAB (ArgList ["B"]) (ArgList ["A"]) None "mask" (VFloat (Fin 0))
      true false = Ok (r, p, oct)
    ∧ loc r "A" "B" = Some (float_of_nat 3)
    ∧ loc r "B" "A" = Some (float_of_nat 3).
Proof.
  destruct (corr_demo dfAB (ArgList ["B"]) (ArgList ["A"]) None "mask"
              (VFloat (Fin 0)) true false) as [[[r p] oct]|] eqn:E;
    [|by vm_compute in E].
  exists r, p, oct. split; [done|].
  destruct (proj2 (corr_mask_uses_valid_rows no_split rows_stat2 rows_stat
                     distinct_stat rows_stat) _ _ _ _ _ _ E)
    as (eta & Heta & ? & ? & _).
  vm_compute in Heta. injection Heta as <-. done.
Defined.

Lemma corr_diagonal_witness :
  ∃ r p oct,
    corr_demo dfAB (ArgList ["B"]) (ArgList ["A"]) None "replace"
      (VFloat (Fin 0)) true false = Ok (r, p, oct)
    ∧ loc r "A" "A" = Some (Fin 1) ∧ loc p "A" "A" = Some (Fin 0)
    ∧ loc r "B" "B" = Some (Fin 1) ∧ loc p "B" "B" = Some (Fin 0).
Proof.
  destruct (corr_demo dfAB (ArgList ["B"]) (ArgList ["A"]) None "replace"
              (VFloat (Fin 0)) true false) as [[[r p] oct]|] eqn:E;
    [|by vm_compute in E].
  exists r, p, oct. split; [done|].
  destruct (corr_diagonal no_split rows_stat2 rows_stat distinct_stat rows_stat
              _ _ _ _ _ _ _ _ _ _ _ NoDup_dfAB E) as [Hd _].
  assert (labels r = ["A"; "B"]) as Hl by (vm_compute in E; by simplify_eq).
  destruct (Hd "A") as (? & ? & _); [rewrite Hl; by_computation|].
  destruct (Hd "B") as (? & ? & _); [rewrite Hl; by_computation|].
  done.
Defined.

(** C3.  In the association frame returned by [corr], for two distinct
    selected columns [i] and [j]: when one of them is numeric, or both are
    categorical and [sym_u] is set, the cells [[i, j]] and [[j, i]] hold
    one and the same value; when both are categorical and [sym_u] is not
    set, [[i, j]] holds [theils_u] of the cleaned columns [i], [j] and
    [[j, i]] holds it in the opposite direction.  Those two need not be
    equal: with a statistic that counts the distinct values of its first
    argument the two cells of the table [dfXY] hold 2 and 4. *)
Theorem corr_symmetric_cells :
  (∀ split_col_by_type pearsonr correlation_ratio theils_u theils_sym_u
     df cat num cm strat rv rct sym r p oct i j,
     NoDup (columns df) →
     corr split_col_by_type pearsonr correlation_ratio theils_u theils_sym_u
       df cat num cm strat rv rct sym = Ok (r, p, oct) →
     i ∈ labels r → j ∈ labels r → i ≠ j →
     (numeric_flag split_col_by_type df cat num i
      || numeric_flag split_col_by_type df cat num j || sym = true →
        ∃ v, loc r i j = Some v ∧ loc r j i = Some v)
     ∧ (numeric_flag split_col_by_type df cat num i
        || numeric_flag split_col_by_type df cat num j || sym = false →
        ∃ x y uij uji,
          _make_finite df i j false false strat rv = Ok (x, y)
          ∧ theils_u x y = Ok uij ∧ theils_u y x = Ok uji
          ∧ loc r i j = Some uij ∧ loc r j i = Some uji))
  ∧ (∃ r p oct,
       corr_demo dfXY (ArgList ["X"; "Y"]) (ArgList []) None "mask"
         (VFloat (Fin 0)) false false = Ok (r, p, oct)
       ∧ loc r "X" "Y" = Some (float_of_nat 2)
       ∧ loc r "Y" "X" = Some (float_of_nat 4)
       ∧ loc r "X" "Y" ≠ loc r "Y" "X").
Proof.
  split.
  - intros. by eapply corr_cells_symmetry.
  - vm_compute. do 3 eexists. split_and!; [reflexivity..|discriminate].
Qed.

Lemma corr_symmetric_cells_witness :
  ∃ r p oct,
    corr_demo dfXY (ArgList ["X"; "Y"]) (ArgList []) None "mask"
      (VFloat (Fin 0)) false true = Ok (r, p, oct)
    ∧ ∃ v, loc r "X" "Y" = Some v ∧ loc r "Y" "X" = Some v.
Proof.
  destruct (corr_demo dfXY (ArgList ["X"; "Y"]) (ArgList []) None "mask"
              (VFloat (Fin 0)) false true) as [[[r p] oct]|] eqn:E;
    [|by vm_compute in E].
  exists r, p, oct. split; [done|].
  assert (labels r = ["X"; "Y"]) as Hl by (vm_compute in E; by simplify_eq).
  refine (proj1 (proj1 corr_symmetric_cells _ _ _ _ _ _ _ _ _ _ _ _ _ _ _ _
                   "X" "Y" NoDup_dfXY E _ _ _) _).
  - rewrite Hl. by_computation.
  - rewrite Hl. by_computation.
  - done.
  - by vm_compute.
Defined.

Lemma corr_kind_by_position_witness :
  ∃ r p ct,
    corr_demo dfAB (ArgList ["B"]) (ArgList ["A"]) None "mask" (VFloat (Fin 0))
      true false = Ok (r, p, Some ct)
    ∧ loc ct "A" "B" = Some (CtTag num_vs_cat)
    ∧ loc ct "B" "A" = Some (CtTag num_vs_cat).
Proof.
  destruct (corr_demo dfAB (ArgList ["B"]) (ArgList ["A"]) None "mask"
              (VFloat (Fin 0)) true false) as [[[r p] [ct|]]|] eqn:E;
    [|by vm_compute in E..].
  exists r, p, ct. split; [done|].
  assert (labels ct = ["A"; "B"]) as Hl by (vm_compute in E; by simplify_eq).
  destruct (corr_kind_by_position no_split rows_stat2 rows_stat distinct_stat
              rows_stat _ _ _ _ _ _ _ _ _ _ _ ct NoDup_dfAB E eq_refl)
    as [Hk _].
  destruct (Hk 0 1 "A" "B") as [H1 H2]; [lia|by rewrite Hl..|].
  vm_compute in H1, H2. done.
Defined.

(** C4 as stated fails: the cell [[B, A]] of a table whose first column is
    numeric and whose second is categorical is tagged [num_vs_cat],
    although [B] is categorical and [A] numeric. *)
Lemma corr_kind_by_flags_counterexample :
  ∃ r p ct,
    corr_demo dfAB (ArgList ["B"]) (ArgList ["A"]) None "mask" (VFloat (Fin 0))
      true false = Ok (r, p, Some ct)
    ∧ numeric_flag no_split dfAB (ArgList ["B"]) (ArgList ["A"]) "B" = false
    ∧ numeric_flag no_split dfAB (ArgList ["B"]) (ArgList ["A"]) "A" = true
    ∧ pair_kind false true = cat_vs_num
    ∧ loc ct "B" "A" = Some (CtTag num_vs_cat)
    ∧ loc ct "B" "A"
      ≠ Some (CtTag (pair_kind
          (numeric_flag no_split dfAB (ArgList ["B"]) (ArgList ["A"]) "B")
          (numeric_flag no_split dfAB (ArgList ["B"]) (ArgList ["A"]) "A"))).
Proof. vm_compute. do 3 eexists. split_and!; try reflexivity. discriminate. Qed.




Lemma zaric_shapes_filtered_witness :
  ∃ coll,
    _zaric_heatmap demo_shape demo_patch
      ["r"; "r"; "s"; "s"] ["c"; "d"; "c"; "d"]
      [Fin (1 # 2); NaN; Fin (1 # 3); Fin (1 # 4)]
      (Some [Fin (1 # 2); Fin 1; Fin 0; Fin (1 # 4)])
      None (Some [false; false; false; true]) false = Ok coll
    ∧ patch_col_ind coll = [0]
    ∧ length (patch_col coll) = 1.
Proof.
  destruct (_zaric_heatmap demo_shape demo_patch
      ["r"; "r"; "s"; "s"] ["c"; "d"; "c"; "d"]
      [Fin (1 # 2); NaN; Fin (1 # 3); Fin (1 # 4)]
      (Some [Fin (1 # 2); Fin 1; Fin 0; Fin (1 # 4)])
      None (Some [false; false; false; true]) false) as [coll|] eqn:E;
    [|by vm_compute in E].
  exists coll. split; [done|].
  destruct (proj1 (zaric_shapes_filtered _ _ _ _ _ _ _ _ _) _ E)
    as (Hi & Hl & _).
  rewrite Hl, Hi. by vm_compute.
Defined.

Section corr_heatmap_facts.
Variable shape : Type.
Variable make_patch : string → string → bool → pyfloat → res shape.
Variable reordered_ind : Matrix → nat → string → string → res (list nat).
Variable split_col_by_type : DataFrame → list string * list string.
Variable pearsonr : Series → Series → res (pyfloat * pyfloat).
Variable correlation_ratio : Series → Series → res pyfloat.
Variable theils_u : Series → Series → res pyfloat.
Variable theils_sym_u : Series → Series → res pyfloat.

#[local] Abbreviation corr_heatmap' :=
  (corr_heatmap shape make_patch reordered_ind split_col_by_type pearsonr
     correlation_ratio theils_u theils_sym_u).

(** C8, as amended.  The mask [corr_heatmap] hands to [heatmap] is the
    caller's mask, or an all-false square one, in which a cell is set when
    [p_bound] is given and the p-value of the cell is greater than or
    equal to it, or when [mask_diagonal] is set and the cell is on the
    diagonal; every other entry is unchanged. *)
Theorem corr_heatmap_render_mask data_frame cat num cm strat rv sym
    mask_diagonal p_bound ax map_type annot mask r p ct d :
  corr_heatmap' data_frame cat num cm strat rv sym mask_diagonal p_bound
    ax map_type annot mask = Ok (r, p, ct, d) →
  ∃ m,
    corr_heatmap_mask r p mask p_bound mask_diagonal = Ok m
    ∧ heatmap shape make_patch reordered_ind (matrix_of_frame r)
        (Some (frame_values CtZero ct)) map_type ax annot (Some m)
        false "euclidean" "average" false "euclidean" "average" = Ok d
    ∧ (∀ i j,
         get2 m i j
         = (λ v : bool,
              v || from_option (λ b, p_ge p b (i, j)) false p_bound
                || (mask_diagonal && bool_decide (i = j)))
           <$> get2 (initial_mask r mask) i j)
    ∧ (∀ i j, i < length (labels r) → j < length (labels r) →
         get2 (initial_mask r None) i j = Some false).
Proof.
  unfold corr_heatmap. intros H.
  destruct (corr _ _ _ _ _ _ _ _ _ _ _ _ _) as [[[r' p'] [ct'|]]|];
    cbn in H; [|done..].
  destruct (corr_heatmap_mask r' p' mask p_bound mask_diagonal) as [m|] eqn:Em;
    cbn in H; [|done].
  destruct (heatmap _ _ _ _ _ _ _ _ _ _ _ _ _ _ _) as [d'|] eqn:Ed;
    cbn in H; [|done].
  simplify_eq. exists m. split_and!; [done..| |].
  - intros i j. rewrite (corr_heatmap_mask_get2 _ _ _ _ _ _ i j Em).
    unfold marked. destruct (get2 _ i j); cbn; [|done].
    by rewrite orb_assoc.
  - intros. by apply initial_mask_default.
Qed.
End corr_heatmap_facts.

Lemma corr_heatmap_render_mask_witness :
  ∃ r p ct d m,
    corr_heatmap_demo dfNum ArgNone (ArgList ["a"; "b"]) None "mask"
      (VFloat (Fin 0)) false true (Some (Fin (1 # 10))) None "zaric" None None
    = Ok (r, p, ct, d)
    ∧ corr_heatmap_mask r p None (Some (Fin (1 # 10))) true = Ok m
    ∧ m = [[true; false]; [false; true]].
Proof.
  destruct (corr_heatmap_demo dfNum ArgNone (ArgList ["a"; "b"]) None "mask"
      (VFloat (Fin 0)) false true (Some (Fin (1 # 10))) None "zaric" None None)
    as [[[[r p] ct] d]|] eqn:E; [|by vm_compute in E].
  destruct (corr_heatmap_render_mask _ _ _ _ _ _ _ _ _ _ _ _ _ _ _ _ _ _ _ _
              _ _ _ _ _ E) as (m & Hm & _ & _ & _).
  exists r, p, ct, d, m. split_and!; [done..|].
  vm_compute in E. simplify_eq. vm_compute in Hm. by simplify_eq.
Defined.

(** C8 as stated fails: a cell whose p-value equals the bound does not
    exceed it, yet it is masked. *)
Lemma corr_heatmap_mask_counterexample :
  ∃ r p ct d m,
    corr_heatmap_demo dfNum ArgNone (ArgList ["a"; "b"]) None "mask"
      (VFloat (Fin 0)) false false (Some (Fin (1 # 20))) None "zaric" None None
    = Ok (r, p, ct, d)
    ∧ corr_heatmap_mask r p None (Some (Fin (1 # 20))) false = Ok m
    ∧ frame_at p 0 1 = Some (Fin (1 # 20))
    ∧ float_gt (Fin (1 # 20)) (Fin (1 # 20)) = false
    ∧ get2 m 0 1 = Some true.
Proof. vm_compute. do 5 eexists. split_and!; reflexivity. Qed.

Section plots_claims.
Variable float_repr : Q → string.
Variable shape : Type.
Variable make_patch : string → string → bool → pyfloat → res shape.
Variable reordered_ind : Matrix → nat → string → string → res (list nat).
Variable plot : Type.
Variable barplot_of_means : DataFrame → plot.

(** C9, as amended.  No call of [crosstab_plot] returns a table.  When [x]
    and [y] are series, or names without [data], or names of columns of
    [data], the call raises a [TypeError] from the [normalize] keyword it
    forwards to [numpy_crosstab], before any table is computed; when a
    name is missing from [data], the lookup raises first. *)
Theorem crosstab_plot_never_returns xy dropna shownan normalize :
  raises (crosstab_plot float_repr shape make_patch reordered_ind
            xy dropna shownan normalize)
  ∧ (is_Ok (resolve_xy xy) →
     crosstab_plot float_repr shape make_patch reordered_ind
       xy dropna shownan normalize = Raise TypeError)
  ∧ (∀ e, resolve_xy xy = Raise e →
     crosstab_plot float_repr shape make_patch reordered_ind
       xy dropna shownan normalize = Raise e)
  ∧ (∀ x y, xy = TwoSeries x y → is_Ok (resolve_xy xy))
  ∧ (∀ x y, xy = Names x y None → is_Ok (resolve_xy xy))
  ∧ (∀ x y data, xy = Names x y (Some data) →
       x ∈ columns data → y ∈ columns data → is_Ok (resolve_xy xy)).
Proof.
  rewrite crosstab_plot_cases. split_and!.
  - destruct (resolve_xy xy) as [|e]; [by exists TypeError|by exists e].
  - by intros [a ->].
  - by intros e ->.
  - intros x y ->. by eexists.
  - intros x y ->. by eexists.
  - intros x y data -> [xs Hx]%assoc_Some [ys Hy]%assoc_Some.
    unfold resolve_xy, getitem. rewrite Hx, Hy. by eexists.
Qed.

End plots_claims.

Lemma crosstab_plot_never_returns_witness :
  crosstab_plot_demo (Names "Sex" "Cls" (Some dfTitanic)) false false None
  = Raise TypeError.
Proof.
  apply (proj1 (proj2 (crosstab_plot_never_returns demo_repr demo_shape
           demo_patch demo_reorder (Names "Sex" "Cls" (Some dfTitanic))
           false false None))).
  by eexists.
Defined.

(** C9 as stated fails: a column name missing from [data] stops the call
    with a [KeyError], before [numpy_crosstab] is reached. *)
Lemma crosstab_plot_counterexample :
  crosstab_plot_demo (Names "Sex" "Fare" (Some dfTitanic)) false false None
  = Raise KeyError
  ∧ crosstab_plot_demo (Names "Sex" "Fare" (Some dfTitanic)) false false None
    ≠ Raise TypeError.
Proof. split; [by vm_compute|]. by vm_compute. Qed.



(** C6, the example of the claim: it holds. *)
Lemma numpy_crosstab_example float_repr :
  numpy_crosstab float_repr
    ("x", [VStr "a"; VStr "b"; VStr "a"]) ("y", [VStr "p"; VStr "p"; VStr "q"])
    false false
  = Ok (MkTable "x" "y" ["a"; "b"] ["p"; "q"] [[1; 1]; [1; 0]]%Z).
Proof. reflexivity. Qed.


(** The same test misses [None]: it is a missing-value marker, but its
    printed form is ["None"], so its row stays. *)
Lemma numpy_crosstab_none_kept float_repr :
  let x := [VNone; VStr "a"] in
  let y := [VStr "p"; VStr "q"] in
  missing_rows x y = 1
  ∧ expected_sum x y false = 1%Z
  ∧ ∃ t, numpy_crosstab float_repr ("x", x) ("y", y) false false = Ok t
         ∧ index t = ["None"; "a"]
         ∧ table_sum t = 2%Z.
Proof. cbn zeta. split_and!; [reflexivity..|]. eexists. split_and!; reflexivity. Qed.
